(** * Chat backend: context assembly, conversation pipeline, profile merge

    A shallow embedding of [app/routers/chat.py], [app/routers/auth.py],
    [app/models.py] and [app/schemas/*.py].

    - Python [str] is a sequence of Unicode code points: [str := list N].
    - A SQLModel table is the list of its rows in insertion order.
    - [session.add] followed by [session.commit] is an insert (or an update
      by primary key) on the committed tables: no handler raises between an
      [add] and its [commit].
    - [datetime.utcnow()] reads a clock oracle; every reading advances a
      counter kept in the world.
    - The completion client is an optional function from requests to
      outcomes; every request sent is logged in the world.
    - The sqlite3 binding refuses some bound values (integers outside the
      signed 64-bit range, text it cannot encode or that is too long);
      module [Sqlite] guards the same steps with these refusals. *)

From Stdlib Require Import List ZArith NArith Bool String Ascii Lia.
From Stdlib Require Import Permutation Sorted.
Import ListNotations.

Set Implicit Arguments.

Open Scope Z_scope.

(** ** Text *)

Definition codepoint := N.
Definition str := list codepoint.

(** A source-code string literal (all literals in the sources are ASCII). *)
Definition lit (s : string) : str :=
  map N_of_ascii (list_ascii_of_string s).

Definition LF : str := [10%N].

Definition str_eqb (a b : str) : bool :=
  if list_eq_dec N.eq_dec a b then true else false.

(** Python truthiness of a [str] and of an [Optional[str]]. *)
Definition str_truthy (s : str) : bool :=
  match s with [] => false | _ :: _ => true end.

Definition opt_truthy (o : option str) : bool :=
  match o with None => false | Some s => str_truthy s end.

(** [sep.join(parts)] *)
Fixpoint join (sep : str) (parts : list str) : str :=
  match parts with
  | [] => []
  | [p] => p
  | p :: rest => p ++ sep ++ join sep rest
  end.

(** The value formatted by an f-string placeholder: [None] prints as
    ["None"]; only reached with a truthy value in this program. *)
Definition fmt (o : option str) : str :=
  match o with Some s => s | None => lit "None" end.

(** ** app/models.py *)

Record User := mkUser {
  user_id : Z;
  email : str;
  hashed_password : str;
  is_active : bool;
  user_created_at : Z
}.

Record UserProfile := mkUserProfile {
  profile_id : Z;
  profile_user_id : Z;
  display_name : option str;
  company_name : option str;
  phone : option str;
  preferences : option str;
  notes : option str;
  profile_updated_at : Z
}.

Record Conversation := mkConversation {
  conv_id : Z;
  conv_user_id : Z;
  title : option str;
  created_at : Z;
  updated_at : Z
}.

Record Message := mkMessage {
  msg_id : Z;
  conversation_id : Z;
  role : str;
  content : str;
  msg_created_at : Z
}.

(** ** app/schemas *)

Record MessageRead := mkMessageRead {
  mr_id : Z;
  mr_role : str;
  mr_content : str;
  mr_created_at : Z
}.

Record ConversationDetail := mkConversationDetail {
  cd_id : Z;
  cd_title : option str;
  cd_created_at : Z;
  cd_updated_at : Z;
  cd_messages : list MessageRead
}.

Record ChatResponse := mkChatResponse {
  cr_conversation_id : Z;
  cr_user_message : MessageRead;
  cr_assistant_message : MessageRead
}.

(** [UserProfileUpdate]: every field defaults to [None]; pydantic records
    which fields the payload set.  The outer [option] is "set in the
    payload", the inner one is the [Optional[str]] value (an explicit
    [null] is [Some None]). *)
Record UserProfileUpdate := mkUserProfileUpdate {
  upd_display_name : option (option str);
  upd_company_name : option (option str);
  upd_phone : option (option str);
  upd_preferences : option (option str);
  upd_notes : option (option str)
}.

Record LoginRequest := mkLoginRequest {
  login_email : str;
  login_password : str
}.

Record Token := mkToken {
  access_token : str;
  token_type : str
}.

(** ** app/config.py *)

Record Settings := mkSettings {
  CLAUDE_MODEL : str;
  MAX_CONVERSATION_HISTORY : Z;
  ACCESS_TOKEN_EXPIRE_MINUTES : Z
}.

(** ** fastapi *)

Record HTTPException := mkHTTPException {
  status_code : Z;
  detail : str;
  headers : list (str * str)
}.

Definition HTTP_401_UNAUTHORIZED : Z := 401.
Definition HTTP_403_FORBIDDEN : Z := 403.
Definition HTTP_404_NOT_FOUND : Z := 404.

(** ** The completion service *)

(** One [{"role": ..., "content": ...}] dict. *)
Record Turn := mkTurn {
  turn_role : str;
  turn_content : str
}.

(** The keyword arguments of [claude_client.messages.create]. *)
Record Request := mkRequest {
  req_model : str;
  req_max_tokens : Z;
  req_system : str;
  req_messages : list Turn
}.

(** What [messages.create] does: returns a response whose [content] is a
    list of text blocks, or raises an [Exception] [e] (kept as [str(e)]). *)
Inductive Outcome :=
| Returned (blocks : list str)
| Raised (e : str).

Definition Client := Request -> Outcome.

(** ** The database, the environment and the world *)

Record DB := mkDB {
  users : list User;
  profiles : list UserProfile;
  conversations : list Conversation;
  messages : list Message
}.

Record Env := mkEnv {
  claude_client : option Client;
  settings : Settings;
  clock : nat -> Z
}.

Record World := mkWorld {
  db : DB;
  ticks : nat;
  sent : list Request
}.

(** ** Handlers: state and [HTTPException] *)

Inductive Result (A : Type) :=
| Ok (a : A)
| Raise (e : HTTPException).

Arguments Ok {A} a.
Arguments Raise {A} e.

Definition M (A : Type) := World -> Result A * World.

Definition ret {A} (a : A) : M A := fun w => (Ok a, w).

Definition raise {A} (e : HTTPException) : M A := fun w => (Raise e, w).

Definition bind {A B} (m : M A) (k : A -> M B) : M B :=
  fun w =>
    match m w with
    | (Ok a, w') => k a w'
    | (Raise e, w') => (Raise e, w')
    end.

Notation "x <- m ;; k" := (bind m (fun x => k))
  (at level 61, m at next level, right associativity).
Notation "m ;;; k" := (bind m (fun _ => k))
  (at level 61, right associativity).

Definition get_db : M DB := fun w => (Ok (db w), w).

Definition put_db (d : DB) : M unit :=
  fun w => (Ok tt, mkWorld d (ticks w) (sent w)).

(** [datetime.utcnow()] *)
Definition utcnow (env : Env) : M Z :=
  fun w => (Ok (clock env (ticks w)), mkWorld (db w) (S (ticks w)) (sent w)).

(** The request leaves the process and the provider answers. *)
Definition messages_create (c : Client) (r : Request) : M Outcome :=
  fun w => (Ok (c r), mkWorld (db w) (ticks w) (sent w ++ [r])).

(** ** Queries *)

(** [.first()] *)
Definition first {A} (rows : list A) : option A :=
  match rows with [] => None | r :: _ => Some r end.

(** [ORDER BY key ASC], as a stable sort: rows with equal keys stay in
    table order (SQL leaves their order open). *)
Fixpoint insert_asc {A} (key : A -> Z) (x : A) (l : list A) : list A :=
  match l with
  | [] => [x]
  | y :: l' => if key x <=? key y then x :: l else y :: insert_asc key x l'
  end.

Definition order_by_asc {A} (key : A -> Z) (rows : list A) : list A :=
  fold_right (insert_asc key) [] rows.

(** [ORDER BY key DESC], stable in the same way. *)
Fixpoint insert_desc {A} (key : A -> Z) (x : A) (l : list A) : list A :=
  match l with
  | [] => [x]
  | y :: l' => if key y <=? key x then x :: l else y :: insert_desc key x l'
  end.

Definition order_by_desc {A} (key : A -> Z) (rows : list A) : list A :=
  fold_right (insert_desc key) [] rows.

(** [LIMIT n] (SQLite: a negative limit is no limit). *)
Definition sql_limit {A} (n : Z) (rows : list A) : list A :=
  if n <? 0 then rows else firstn (Z.to_nat n) rows.

(** The integer primary key given to an inserted row. *)
Definition next_id (ids : list Z) : Z :=
  fold_right Z.max 0 ids + 1.

(** ** app/routers/chat.py: the context assembler *)

Definition base_prompt : str :=
  lit "You are a helpful assistant for Frederick Fire and Safety. " ++ LF ++
  lit "You help customers inquire about fire extinguishers and safety equipment." ++ LF ++
  lit "You remember previous conversations and user preferences." ++ LF ++
  lit "Be friendly, helpful, and professional.".

(** [if value: context_parts.append(f"<label>{value}")] *)
Definition append_if (label : string) (value : option str)
    (context_parts : list str) : list str :=
  if opt_truthy value
  then context_parts ++ [lit label ++ fmt value]
  else context_parts.

Definition context_parts (profile : UserProfile) : list str :=
  append_if "Notes: " (notes profile)
    (append_if "Preferences: " (preferences profile)
      (append_if "Phone: " (phone profile)
        (append_if "Company: " (company_name profile)
          (append_if "Customer name: " (display_name profile) [])))).

Definition known_information_header : str :=
  LF ++ LF ++ lit "Known information about this customer:" ++ LF.

Definition build_system_prompt (user : User) (profile : option UserProfile)
    : str :=
  match profile with
  | Some p =>
      match context_parts p with
      | [] => base_prompt
      | parts => base_prompt ++ known_information_header ++ join LF parts
      end
  | None => base_prompt
  end.

Definition turn_of_message (msg : Message) : Turn :=
  mkTurn (role msg) (content msg).

(** [limit or settings.MAX_CONVERSATION_HISTORY] *)
Definition effective_limit (env : Env) (limit : option Z) : Z :=
  match limit with
  | Some l => if l =? 0 then MAX_CONVERSATION_HISTORY (settings env) else l
  | None => MAX_CONVERSATION_HISTORY (settings env)
  end.

Definition messages_of (d : DB) (cid : Z) : list Message :=
  filter (fun m => conversation_id m =? cid) (messages d).

(** The rows the history query returns, newest first. *)
Definition history_rows (env : Env) (d : DB) (cid : Z) (limit : option Z)
    : list Message :=
  sql_limit (effective_limit env limit)
    (order_by_desc msg_created_at (messages_of d cid)).

Definition get_conversation_history (env : Env) (d : DB) (cid : Z)
    (limit : option Z) : list Turn :=
  map turn_of_message (rev (history_rows env d cid limit)).

(** ** app/routers/chat.py: the completion call *)

Definition demo_reply (new_message : str) : str :=
  lit "[Demo mode - Claude API not configured] I received your message: '"
  ++ new_message ++
  lit "'. To enable real responses, set your ANTHROPIC_API_KEY.".

Definition apology_reply (e : str) : str :=
  lit "I apologize, but I encountered an error: " ++ e ++
  lit ". Please try again.".

(** [str(e)] of the [IndexError] raised by [response.content[0]] on an
    empty list. *)
Definition index_error : str := lit "list index out of range".

Definition call_claude (env : Env) (system_prompt : str)
    (msgs : list Turn) (new_message : str) : M str :=
  match claude_client env with
  | None => ret (demo_reply new_message)
  | Some client =>
      let full_messages := msgs ++ [mkTurn (lit "user") new_message] in
      out <- messages_create client
               (mkRequest (CLAUDE_MODEL (settings env)) 1024 system_prompt
                          full_messages) ;;
      match out with
      | Returned (text :: _) => ret text
      | Returned [] => ret (apology_reply index_error)
      | Raised e => ret (apology_reply e)
      end
  end.

(** ** app/routers/chat.py: conversation endpoints *)

Definition conversation_not_found : HTTPException :=
  mkHTTPException HTTP_404_NOT_FOUND (lit "Conversation not found") [].

(** [select(Conversation).where(id == conversation_id,
    user_id == current_user.id)] followed by [.first()] *)
Definition select_owned (d : DB) (cid : Z) (current_user : User)
    : option Conversation :=
  first (filter (fun c => (conv_id c =? cid)
                          && (conv_user_id c =? user_id current_user))
                (conversations d)).

Definition message_read (m : Message) : MessageRead :=
  mkMessageRead (msg_id m) (role m) (content m) (msg_created_at m).

Definition new_conversation (env : Env) (current_user : User)
    (t : option str) : M Conversation :=
  c_at <- utcnow env ;;
  u_at <- utcnow env ;;
  d <- get_db ;;
  let conversation :=
    mkConversation (next_id (map conv_id (conversations d)))
                   (user_id current_user) t c_at u_at in
  put_db (mkDB (users d) (profiles d) (conversations d ++ [conversation])
               (messages d)) ;;;
  ret conversation.

Definition create_conversation (env : Env) (conv_in_title : option str)
    (current_user : User) : M Conversation :=
  new_conversation env current_user
    (if opt_truthy conv_in_title then conv_in_title
     else Some (lit "New Conversation")).

Definition get_conversation (cid : Z) (current_user : User)
    : M ConversationDetail :=
  d <- get_db ;;
  match select_owned d cid current_user with
  | None => raise conversation_not_found
  | Some conversation =>
      let msgs := order_by_asc msg_created_at (messages_of d cid) in
      ret (mkConversationDetail (conv_id conversation) (title conversation)
             (created_at conversation) (updated_at conversation)
             (map message_read msgs))
  end.

Definition delete_conversation (cid : Z) (current_user : User) : M unit :=
  d <- get_db ;;
  match select_owned d cid current_user with
  | None => raise conversation_not_found
  | Some conversation =>
      put_db (mkDB (users d) (profiles d)
                (filter (fun c => negb (conv_id c =? conv_id conversation))
                        (conversations d))
                (filter (fun m => negb (conversation_id m =? cid))
                        (messages d)))
  end.

(** ** app/routers/chat.py: the chat endpoint *)

Definition select_profile (d : DB) (current_user : User)
    : option UserProfile :=
  first (filter (fun p => profile_user_id p =? user_id current_user)
                (profiles d)).

(** [session.add(message); session.commit(); session.refresh(message)] *)
Definition add_message (cid : Z) (r c : str) (at_ : Z) : M Message :=
  d <- get_db ;;
  let m := mkMessage (next_id (map msg_id (messages d))) cid r c at_ in
  put_db (mkDB (users d) (profiles d) (conversations d) (messages d ++ [m])) ;;;
  ret m.

Definition set_updated_at (c : Conversation) (t : Z) : Conversation :=
  mkConversation (conv_id c) (conv_user_id c) (title c) (created_at c) t.

(** The second commit of [send_message]: the assistant message and the
    conversation's new [updated_at] are flushed together. *)
Definition add_message_and_touch (cid : Z) (r c : str) (at_ : Z)
    (conversation : Conversation) (touched_at : Z) : M Message :=
  d <- get_db ;;
  let m := mkMessage (next_id (map msg_id (messages d))) cid r c at_ in
  put_db (mkDB (users d) (profiles d)
            (map (fun c0 => if conv_id c0 =? conv_id conversation
                            then set_updated_at c0 touched_at else c0)
                 (conversations d))
            (messages d ++ [m])) ;;;
  ret m.

Definition send_message (env : Env) (cid : Z) (message_in : str)
    (current_user : User) : M ChatResponse :=
  d <- get_db ;;
  match select_owned d cid current_user with
  | None => raise conversation_not_found
  | Some conversation =>
      let profile := select_profile d current_user in
      let system_prompt := build_system_prompt current_user profile in
      let history := get_conversation_history env d cid None in
      user_at <- utcnow env ;;
      user_message <- add_message cid (lit "user") message_in user_at ;;
      assistant_response <-
        call_claude env system_prompt history message_in ;;
      assistant_at <- utcnow env ;;
      touched_at <- utcnow env ;;
      assistant_message <-
        add_message_and_touch cid (lit "assistant") assistant_response
          assistant_at conversation touched_at ;;
      ret (mkChatResponse cid (message_read user_message)
             (message_read assistant_message))
  end.

(** [content[:50] + "..." if len(content) > 50 else content] *)
Definition derive_title (content_ : str) : str :=
  if (50 <? Z.of_nat (List.length content_))
  then firstn 50 content_ ++ lit "..."
  else content_.

(** [conversation_id: Optional[int]]; [if conversation_id:] is false for
    [None] and for [0]. *)
Definition id_truthy (conversation_id_ : option Z) : bool :=
  match conversation_id_ with
  | Some c => negb (c =? 0)
  | None => false
  end.

Definition quick_message (env : Env) (message_in : str)
    (conversation_id_ : option Z) (current_user : User) : M ChatResponse :=
  conversation <-
    (if id_truthy conversation_id_ then
       d <- get_db ;;
       match select_owned d (match conversation_id_ with
                             | Some c => c | None => 0 end) current_user with
       | None => raise conversation_not_found
       | Some conversation => ret conversation
       end
     else
       new_conversation env current_user (Some (derive_title message_in))) ;;
  send_message env (conv_id conversation) message_in current_user.

(** ** app/routers/chat.py: the profile endpoint *)

Inductive ProfileField :=
| F_display_name
| F_company_name
| F_phone
| F_preferences
| F_notes.

Definition getattr (p : UserProfile) (k : ProfileField) : option str :=
  match k with
  | F_display_name => display_name p
  | F_company_name => company_name p
  | F_phone => phone p
  | F_preferences => preferences p
  | F_notes => notes p
  end.

Definition setattr (p : UserProfile) (k : ProfileField) (v : option str)
    : UserProfile :=
  match k with
  | F_display_name =>
      mkUserProfile (profile_id p) (profile_user_id p) v (company_name p)
        (phone p) (preferences p) (notes p) (profile_updated_at p)
  | F_company_name =>
      mkUserProfile (profile_id p) (profile_user_id p) (display_name p) v
        (phone p) (preferences p) (notes p) (profile_updated_at p)
  | F_phone =>
      mkUserProfile (profile_id p) (profile_user_id p) (display_name p)
        (company_name p) v (preferences p) (notes p) (profile_updated_at p)
  | F_preferences =>
      mkUserProfile (profile_id p) (profile_user_id p) (display_name p)
        (company_name p) (phone p) v (notes p) (profile_updated_at p)
  | F_notes =>
      mkUserProfile (profile_id p) (profile_user_id p) (display_name p)
        (company_name p) (phone p) (preferences p) v (profile_updated_at p)
  end.

(** The payload's entry for a field: [None] when the payload omits it. *)
Definition payload (u : UserProfileUpdate) (k : ProfileField)
    : option (option str) :=
  match k with
  | F_display_name => upd_display_name u
  | F_company_name => upd_company_name u
  | F_phone => upd_phone u
  | F_preferences => upd_preferences u
  | F_notes => upd_notes u
  end.

Definition all_fields : list ProfileField :=
  [F_display_name; F_company_name; F_phone; F_preferences; F_notes].

(** [profile_in.model_dump(exclude_unset=True)]: the set fields, in
    declaration order, with their values. *)
Definition model_dump_exclude_unset (u : UserProfileUpdate)
    : list (ProfileField * option str) :=
  flat_map (fun k => match payload u k with
                     | Some v => [(k, v)]
                     | None => []
                     end) all_fields.

(** [for key, value in update_data.items(): setattr(profile, key, value)] *)
Definition apply_update_data (update_data : list (ProfileField * option str))
    (profile : UserProfile) : UserProfile :=
  fold_left (fun p kv => setattr p (fst kv) (snd kv)) update_data profile.

Definition set_profile_updated_at (p : UserProfile) (t : Z) : UserProfile :=
  mkUserProfile (profile_id p) (profile_user_id p) (display_name p)
    (company_name p) (phone p) (preferences p) (notes p) t.

Definition set_profile_id (p : UserProfile) (i : Z) : UserProfile :=
  mkUserProfile i (profile_user_id p) (display_name p)
    (company_name p) (phone p) (preferences p) (notes p)
    (profile_updated_at p).

(** [UserProfile(user_id=...)]: every learned field is [None]; the [id] is
    [None] until the insert assigns it (the [0] here is never read). *)
Definition blank_profile (uid : Z) (t : Z) : UserProfile :=
  mkUserProfile 0 uid None None None None None t.

Definition update_profile (env : Env) (profile_in : UserProfileUpdate)
    (current_user : User) : M UserProfile :=
  d <- get_db ;;
  let found := select_profile d current_user in
  profile <- match found with
             | Some p => ret p
             | None => t0 <- utcnow env ;;
                       ret (blank_profile (user_id current_user) t0)
             end ;;
  let update_data := model_dump_exclude_unset profile_in in
  let profile1 := apply_update_data update_data profile in
  t <- utcnow env ;;
  let profile2 := set_profile_updated_at profile1 t in
  d' <- get_db ;;
  match found with
  | Some _ =>
      put_db (mkDB (users d')
                (map (fun p => if profile_id p =? profile_id profile2
                               then profile2 else p) (profiles d'))
                (conversations d') (messages d')) ;;;
      ret profile2
  | None =>
      let profile3 :=
        set_profile_id profile2 (next_id (map profile_id (profiles d'))) in
      put_db (mkDB (users d') (profiles d' ++ [profile3])
                (conversations d') (messages d')) ;;;
      ret profile3
  end.

(** ** app/routers/auth.py *)

(** [app/auth.py] is not among the sources: the two functions [login]
    imports from it are taken as parameters. *)
Record AuthModule := mkAuthModule {
  verify_password : str -> str -> bool;
  create_access_token : str -> Z -> str
}.

Definition incorrect_email_or_password : HTTPException :=
  mkHTTPException HTTP_401_UNAUTHORIZED
    (lit "Incorrect email or password.")
    [(lit "WWW-Authenticate", lit "Bearer")].

Definition user_account_disabled : HTTPException :=
  mkHTTPException HTTP_403_FORBIDDEN (lit "User account is disabled.") [].

Definition select_user_by_email (d : DB) (e : str) : option User :=
  first (filter (fun u => str_eqb (email u) e) (users d)).

Definition login (auth : AuthModule) (env : Env) (login_data : LoginRequest)
    : M Token :=
  d <- get_db ;;
  match select_user_by_email d (login_email login_data) with
  | None => raise incorrect_email_or_password
  | Some user =>
      if negb (verify_password auth (login_password login_data)
                 (hashed_password user))
      then raise incorrect_email_or_password
      else if negb (is_active user)
      then raise user_account_disabled
      else ret (mkToken
                  (create_access_token auth (email user)
                     (ACCESS_TOKEN_EXPIRE_MINUTES (settings env)))
                  (lit "bearer"))
  end.

(** ** Sample data *)

Definition sample_settings : Settings :=
  mkSettings (lit "claude-sonnet-4-20250514") 20 60.

Definition sample_clock : nat -> Z := fun n => 1000 + Z.of_nat n.

Definition env_unconfigured : Env :=
  mkEnv None sample_settings sample_clock.

(** A provider that answers every request with one text block. *)
Definition env_answering : Env :=
  mkEnv (Some (fun _ => Returned [lit "Hello!"])) sample_settings
        sample_clock.

(** A provider whose every call raises. *)
Definition env_failing : Env :=
  mkEnv (Some (fun _ => Raised (lit "Connection error.")))
        sample_settings sample_clock.

Definition alice : User :=
  mkUser 1 (lit "a@x.com") (lit "hash:pw1") true 10.

Definition bob : User :=
  mkUser 2 (lit "b@x.com") (lit "hash:pw2") false 11.

Definition alice_profile : UserProfile :=
  mkUserProfile 1 1 (Some (lit "Alice")) (Some (lit "Acme")) None
                (Some []) (Some (lit "prefers email")) 12.

Definition sample_db : DB :=
  mkDB [alice; bob] [alice_profile]
       [mkConversation 1 1 (Some (lit "Extinguishers")) 20 24;
        mkConversation 2 2 (Some (lit "Alarms")) 21 21]
       [mkMessage 1 1 (lit "user") (lit "hi") 22;
        mkMessage 2 1 (lit "assistant") (lit "hello") 23;
        mkMessage 3 1 (lit "user") (lit "prices?") 24].

Definition sample_world : World := mkWorld sample_db 0 [].

(** A hashing scheme for the samples: the hash of [pw] is ["hash:" + pw]. *)
Definition sample_auth : AuthModule :=
  mkAuthModule (fun pw h => str_eqb (lit "hash:" ++ pw) h)
               (fun sub minutes => lit "token-for-" ++ sub).

Definition sixty_chars : str := repeat 97%N 60.


(** ** app/routers/chat.py: listing conversations and reading the profile *)

Definition list_conversations (current_user : User)
    : M (list Conversation) :=
  d <- get_db ;;
  ret (order_by_desc updated_at
         (filter (fun c => conv_user_id c =? user_id current_user)
                 (conversations d))).

Definition get_profile (env : Env) (current_user : User) : M UserProfile :=
  d <- get_db ;;
  match select_profile d current_user with
  | Some profile => ret profile
  | None =>
      t <- utcnow env ;;
      d' <- get_db ;;
      let profile :=
        set_profile_id (blank_profile (user_id current_user) t)
                       (next_id (map profile_id (profiles d'))) in
      put_db (mkDB (users d') (profiles d' ++ [profile])
                (conversations d') (messages d')) ;;;
      ret profile
  end.

(** ** app/routers/auth.py: registration *)

(** [UserCreate]; the email is the value pydantic has validated. *)
Record UserCreate := mkUserCreate {
  uc_email : str;
  uc_password : str
}.

Definition HTTP_400_BAD_REQUEST : Z := 400.

Definition email_already_registered : HTTPException :=
  mkHTTPException HTTP_400_BAD_REQUEST (lit "Email already registered.") [].

(** [get_password_hash] comes from [app/auth.py], which is not among the
    sources: it is a parameter. *)
Definition register_user (get_password_hash : str -> str) (env : Env)
    (user_in : UserCreate) : M User :=
  d <- get_db ;;
  match select_user_by_email d (uc_email user_in) with
  | Some _ => raise email_already_registered
  | None =>
      t <- utcnow env ;;
      let user :=
        mkUser (next_id (map user_id (users d))) (uc_email user_in)
               (get_password_hash (uc_password user_in)) true t in
      put_db (mkDB (users d ++ [user]) (profiles d) (conversations d)
                (messages d)) ;;;
      t' <- utcnow env ;;
      d' <- get_db ;;
      let profile :=
        set_profile_id (blank_profile (user_id user) t')
                       (next_id (map profile_id (profiles d'))) in
      put_db (mkDB (users d') (profiles d' ++ [profile])
                (conversations d') (messages d')) ;;;
      ret user
  end.

(** ** More sample data *)

Definition sample_hash : str -> str := fun pw => lit "hash:" ++ pw.

Definition carol_in : UserCreate :=
  mkUserCreate (lit "c@x.com") (lit "pw3").

(** ** The SQLite binding: values a statement cannot carry

    The handlers above take every [select] and every [commit] to go
    through.  The sqlite3 binding raises instead of executing a statement
    when a bound integer is outside the signed 64-bit range
    ([OverflowError]), when a bound text is not UTF-8 encodable because it
    holds a lone surrogate ([UnicodeEncodeError]), and when a bound text is
    longer than the engine's length limit ([DataError]).  No handler
    catches these: the exception leaves the handler, and what earlier
    commits stored stays stored. *)

Inductive Exception :=
| Http (e : HTTPException)
| UnicodeEncodeError
| DataError
| OverflowError.

Inductive Run (A : Type) :=
| Returns (a : A)
| Raises (x : Exception).

Arguments Returns {A} a.
Arguments Raises {A} x.

Definition H (A : Type) := World -> Run A * World.

Definition hret {A} (a : A) : H A := fun w => (Returns a, w).

Definition hraise {A} (x : Exception) : H A := fun w => (Raises x, w).

Definition hbind {A B} (m : H A) (k : A -> H B) : H B :=
  fun w =>
    match m w with
    | (Returns a, w') => k a w'
    | (Raises x, w') => (Raises x, w')
    end.

Notation "x <~ m ;; k" := (hbind m (fun x => k))
  (at level 61, m at next level, right associativity).

(** A step of the handlers above, as a step that can also raise. *)
Definition lift {A} (m : M A) : H A :=
  fun w =>
    match m w with
    | (Ok a, w') => (Returns a, w')
    | (Raise e, w') => (Raises (Http e), w')
    end.

(** The engine's limit on the bytes of a text (SQLITE_MAX_LENGTH). *)
Record Engine := mkEngine {
  max_length : N
}.

Definition int64 (z : Z) : bool :=
  (- 2 ^ 63 <=? z) && (z <? 2 ^ 63).

Definition surrogate (c : codepoint) : bool :=
  ((55296 <=? c) && (c <=? 57343))%N.

Definition utf8_encodable (s : str) : bool :=
  forallb (fun c => negb (surrogate c)) s.

Definition utf8_width (c : codepoint) : N :=
  (if c <? 128 then 1 else if c <? 2048 then 2
   else if c <? 65536 then 3 else 4)%N.

Definition utf8_length (s : str) : N :=
  fold_right (fun c n => (utf8_width c + n)%N) 0%N s.

(** What binding a value to a statement parameter raises, if anything. *)
Definition bind_int (z : Z) : option Exception :=
  if int64 z then None else Some OverflowError.

Definition bind_text (eng : Engine) (s : str) : option Exception :=
  if negb (utf8_encodable s) then Some UnicodeEncodeError
  else if (max_length eng <? utf8_length s)%N then Some DataError
  else None.

(** [None] is bound as NULL. *)
Definition bind_optional_text (eng : Engine) (o : option str)
    : option Exception :=
  match o with
  | Some s => bind_text eng s
  | None => None
  end.

(** The parameters of one statement, bound in order: the first that cannot
    be bound raises. *)
Definition bind_params (params : list (option Exception)) : H unit :=
  match fold_right (fun p rest => match p with
                                  | Some x => Some x
                                  | None => rest
                                  end) None params with
  | Some x => hraise x
  | None => hret tt
  end.

Module Sqlite.

(** The owner-scoped [select], executed: it binds the conversation id and
    the caller's id. *)
Definition exec_select_owned (cid : Z) (current_user : User)
    : H (option Conversation) :=
  _ <~ bind_params [bind_int cid; bind_int (user_id current_user)] ;;
  d <~ lift get_db ;;
  hret (select_owned d cid current_user).

Definition get_conversation (cid : Z) (current_user : User)
    : H ConversationDetail :=
  found <~ exec_select_owned cid current_user ;;
  match found with
  | None => hraise (Http conversation_not_found)
  | Some conversation =>
      _ <~ bind_params [bind_int cid] ;;
      d <~ lift get_db ;;
      let msgs := order_by_asc msg_created_at (messages_of d cid) in
      hret (mkConversationDetail (conv_id conversation) (title conversation)
              (created_at conversation) (updated_at conversation)
              (map message_read msgs))
  end.

(** The [DELETE] statements bind ids read from stored rows. *)
Definition delete_conversation (cid : Z) (current_user : User) : H unit :=
  found <~ exec_select_owned cid current_user ;;
  match found with
  | None => hraise (Http conversation_not_found)
  | Some conversation =>
      _ <~ bind_params [bind_int cid] ;;
      d <~ lift get_db ;;
      lift (put_db (mkDB (users d) (profiles d)
                      (filter (fun c => negb (conv_id c
                                              =? conv_id conversation))
                              (conversations d))
                      (filter (fun m => negb (conversation_id m =? cid))
                              (messages d))))
  end.

Definition send_message (eng : Engine) (env : Env) (cid : Z)
    (message_in : str) (current_user : User) : H ChatResponse :=
  found <~ exec_select_owned cid current_user ;;
  match found with
  | None => hraise (Http conversation_not_found)
  | Some conversation =>
      _ <~ bind_params [bind_int (user_id current_user)] ;;
      d <~ lift get_db ;;
      let profile := select_profile d current_user in
      let system_prompt := build_system_prompt current_user profile in
      _ <~ bind_params [bind_int cid;
                        bind_int (effective_limit env None)] ;;
      let history := get_conversation_history env d cid None in
      user_at <~ lift (utcnow env) ;;
      _ <~ bind_params [bind_int cid; bind_text eng message_in] ;;
      user_message <~ lift (add_message cid (lit "user") message_in
                              user_at) ;;
      assistant_response <~
        lift (call_claude env system_prompt history message_in) ;;
      assistant_at <~ lift (utcnow env) ;;
      touched_at <~ lift (utcnow env) ;;
      _ <~ bind_params [bind_int cid; bind_text eng assistant_response] ;;
      assistant_message <~
        lift (add_message_and_touch cid (lit "assistant")
                assistant_response assistant_at conversation touched_at) ;;
      hret (mkChatResponse cid (message_read user_message)
              (message_read assistant_message))
  end.

(** [Conversation(...)], [session.add], [session.commit]: the insert
    binds the owner's id and the title. *)
Definition new_conversation (eng : Engine) (env : Env)
    (current_user : User) (t : option str) : H Conversation :=
  c_at <~ lift (utcnow env) ;;
  u_at <~ lift (utcnow env) ;;
  _ <~ bind_params [bind_int (user_id current_user);
                    bind_optional_text eng t] ;;
  d <~ lift get_db ;;
  let conversation :=
    mkConversation (next_id (map conv_id (conversations d)))
                   (user_id current_user) t c_at u_at in
  _ <~ lift (put_db (mkDB (users d) (profiles d)
                       (conversations d ++ [conversation]) (messages d))) ;;
  hret conversation.

Definition quick_message (eng : Engine) (env : Env) (message_in : str)
    (conversation_id_ : option Z) (current_user : User) : H ChatResponse :=
  conversation <~
    (if id_truthy conversation_id_ then
       found <~ exec_select_owned (match conversation_id_ with
                                   | Some c => c | None => 0 end)
                  current_user ;;
       match found with
       | None => hraise (Http conversation_not_found)
       | Some conversation => hret conversation
       end
     else
       new_conversation eng env current_user
         (Some (derive_title message_in))) ;;
  send_message eng env (conv_id conversation) message_in current_user.

End Sqlite.

(** ** Sample data for the binding *)

Definition sample_engine : Engine := mkEngine 1000000000.

(** A lone surrogate, U+D800. *)
Definition lone_surrogate : str := [55296%N].

(** A provider whose answer holds a lone surrogate. *)
Definition env_surrogate_reply : Env :=
  mkEnv (Some (fun _ => Returned [lone_surrogate])) sample_settings
        sample_clock.

(** Alice with two conversations, the second updated last. *)
Definition sample_world_two : World :=
  mkWorld
    (mkDB [alice; bob] [alice_profile]
       [mkConversation 1 1 (Some (lit "Extinguishers")) 20 24;
        mkConversation 2 2 (Some (lit "Alarms")) 21 21;
        mkConversation 3 1 (Some (lit "Hoses")) 30 35]
       [mkMessage 1 1 (lit "user") (lit "hi") 22;
        mkMessage 2 3 (lit "user") (lit "hoses?") 35])
    0 [].
(** ** Specification-side definitions *)

(** The known-information lines as the specification words them: the
    non-empty fields, labelled, in the order display name, company, phone,
    preferences, notes. *)
Definition spec_known_lines (p : UserProfile) : list str :=
  flat_map (fun lv : string * option str =>
              match snd lv with
              | Some (c :: s) => [lit (fst lv) ++ c :: s]
              | _ => []
              end)
    [("Customer name: "%string, display_name p);
     ("Company: "%string, company_name p);
     ("Phone: "%string, phone p);
     ("Preferences: "%string, preferences p);
     ("Notes: "%string, notes p)].

(** A field is empty when it is [None] or the empty string. *)
Definition field_empty (o : option str) : Prop :=
  o = None \/ o = Some [].

Definition all_fields_empty (p : UserProfile) : Prop :=
  forall k, field_empty (getattr p k).



(** The request [call_claude] builds for a configured client. *)
Definition completion_request (env : Env) (system_prompt : str)
    (msgs : list Turn) (new_message : str) : Request :=
  mkRequest (CLAUDE_MODEL (settings env)) 1024 system_prompt
            (msgs ++ [mkTurn (lit "user") new_message]).

(** The three outcomes of the completion step. *)
Inductive CompletionOutcome :=
| NotConfigured
| Failed (e : str)
| Generated (text : str).

Definition completion_outcome (env : Env) (r : Request)
    : CompletionOutcome :=
  match claude_client env with
  | None => NotConfigured
  | Some client =>
      match client r with
      | Returned (text :: _) => Generated text
      | Returned [] => Failed index_error
      | Raised e => Failed e
      end
  end.

Definition reply_for (new_message : str) (o : CompletionOutcome) : str :=
  match o with
  | NotConfigured => demo_reply new_message
  | Failed e => apology_reply e
  | Generated text => text
  end.

Definition requests_for (o : CompletionOutcome) (r : Request)
    : list Request :=
  match o with
  | NotConfigured => []
  | _ => [r]
  end.

(** The conversation table after the timestamp bump of one turn. *)
Definition touch (cid t : Z) (cs : list Conversation) : list Conversation :=
  map (fun c => if conv_id c =? cid then set_updated_at c t else c) cs.

(** A conversation with this id owned by this user is stored. *)
Definition owned (d : DB) (cid : Z) (u : User) : Prop :=
  exists c, In c (conversations d) /\ conv_id c = cid
            /\ conv_user_id c = user_id u.

(** Chronological order: creation times never decrease along the list. *)
Definition chronological (l : list Message) : Prop :=
  StronglySorted (fun a b => msg_created_at a <= msg_created_at b) l.

(** Newest first. *)
Definition newest_first (l : list Message) : Prop :=
  StronglySorted (fun a b => msg_created_at b <= msg_created_at a) l.


(** A payload that supplies only [phone]. *)
Definition only_phone (v : option str) : UserProfileUpdate :=
  mkUserProfileUpdate None None (Some v) None None.


(** Primary keys are unique in the message and conversation tables. *)
Definition unique_keys (d : DB) : Prop :=
  NoDup (map msg_id (messages d)) /\ NoDup (map conv_id (conversations d)).

(** Every message belongs to a stored conversation. *)
Definition messages_belong (d : DB) : Prop :=
  forall m, In m (messages d) ->
    exists c, In c (conversations d) /\ conv_id c = conversation_id m.

(** What a turn never changes in a conversation row. *)
Definition conversation_identity (c : Conversation)
    : Z * Z * option str * Z :=
  (conv_id c, conv_user_id c, title c, created_at c).

(** Newest-updated first. *)
Definition newest_updated_first (l : list Conversation) : Prop :=
  StronglySorted (fun a b => updated_at b <= updated_at a) l.

(** The binding takes the integer, or the text. *)
Definition accepted_int (z : Z) : Prop := bind_int z = None.

Definition accepted_text (eng : Engine) (s : str) : Prop :=
  bind_text eng s = None.

(** The reply [call_claude] gives in a turn on conversation [cid]. *)
Definition turn_reply (env : Env) (d : DB) (u : User) (cid : Z)
    (content_ : str) : str :=
  reply_for content_
    (completion_outcome env
       (completion_request env
          (build_system_prompt u (select_profile d u))
          (get_conversation_history env d cid None) content_)).

(** The exceptions the handlers raise themselves, as opposed to the ones
    the binding raises. *)
Definition raised_by_handler (x : Exception) : Prop :=
  match x with
  | Http _ => True
  | _ => False
  end.
(** * Theorems *)

Unset Implicit Arguments.

Ltac run :=
  unfold bind, ret, raise, get_db, put_db, utcnow, messages_create; simpl.

(** ** create_conversation *)


(** ** build_system_prompt *)

Lemma opt_truthy_false_iff : forall o, opt_truthy o = false <-> field_empty o.
Proof.
  intros [[|c s]|]; unfold field_empty; simpl; split; intros H;
    try reflexivity; try discriminate; auto.
  destruct H; discriminate.
Qed.

Lemma context_parts_spec : forall p, context_parts p = spec_known_lines p.
Proof.
  intros p. unfold context_parts, spec_known_lines, append_if.
  destruct (display_name p) as [[|? ?]|], (company_name p) as [[|? ?]|],
    (phone p) as [[|? ?]|], (preferences p) as [[|? ?]|],
    (notes p) as [[|? ?]|]; reflexivity.
Qed.

Lemma spec_known_lines_nil :
  forall p, spec_known_lines p = [] <-> all_fields_empty p.
Proof.
  intros p. unfold all_fields_empty, spec_known_lines. split.
  - intros H k. apply opt_truthy_false_iff.
    destruct (display_name p) as [[|? ?]|] eqn:E1; try discriminate H;
    destruct (company_name p) as [[|? ?]|] eqn:E2; try discriminate H;
    destruct (phone p) as [[|? ?]|] eqn:E3; try discriminate H;
    destruct (preferences p) as [[|? ?]|] eqn:E4; try discriminate H;
    destruct (notes p) as [[|? ?]|] eqn:E5; try discriminate H;
    destruct k; simpl; rewrite ?E1, ?E2, ?E3, ?E4, ?E5; reflexivity.
  - intros H.
    pose proof (H F_display_name) as H1. pose proof (H F_company_name) as H2.
    pose proof (H F_phone) as H3. pose proof (H F_preferences) as H4.
    pose proof (H F_notes) as H5. simpl in *.
    unfold field_empty in *.
    destruct H1 as [-> | ->], H2 as [-> | ->], H3 as [-> | ->],
      H4 as [-> | ->], H5 as [-> | ->]; reflexivity.
Qed.

(** C9: [build_system_prompt] is a function of the user and the optional
    profile alone; it returns the base prompt when the profile is absent or
    all five fields are empty, and otherwise the base prompt, the
    known-information header and the labelled non-empty fields joined by
    line feeds, in the order display name, company, phone, preferences,
    notes. *)
Theorem build_system_prompt_spec :
  forall (u : User) (profile : option UserProfile),
    (profile = None -> build_system_prompt u profile = base_prompt)
    /\ (forall p, profile = Some p -> all_fields_empty p ->
        build_system_prompt u profile = base_prompt)
    /\ (forall p, profile = Some p -> ~ all_fields_empty p ->
        spec_known_lines p <> []
        /\ build_system_prompt u profile
           = base_prompt ++ LF ++ LF
             ++ lit "Known information about this customer:" ++ LF
             ++ join LF (spec_known_lines p)).
Proof.
  intros u profile. split; [|split].
  - intros ->. reflexivity.
  - intros p -> H. unfold build_system_prompt.
    rewrite context_parts_spec.
    apply spec_known_lines_nil in H. rewrite H. reflexivity.
  - intros p -> H. unfold build_system_prompt.
    rewrite context_parts_spec.
    assert (Hne : spec_known_lines p <> []).
    { intros E. apply H. apply spec_known_lines_nil. exact E. }
    split; [exact Hne|].
    destruct (spec_known_lines p) as [|l ls] eqn:E; [congruence|].
    unfold known_information_header.
    repeat rewrite <- app_assoc. reflexivity.
Qed.

(** ** call_claude *)

Lemma call_claude_run :
  forall env sp msgs nm w,
    let r := completion_request env sp msgs nm in
    let o := completion_outcome env r in
    call_claude env sp msgs nm w
      = (Ok (reply_for nm o),
         mkWorld (db w) (ticks w) (sent w ++ requests_for o r)).
Proof.
  intros env sp msgs nm w. unfold call_claude, completion_outcome.
  destruct (claude_client env) as [client|]; run.
  - fold (completion_request env sp msgs nm).
    destruct (client (completion_request env sp msgs nm)) as [[|t ts]|e];
      reflexivity.
  - rewrite app_nil_r. destruct w; reflexivity.
Qed.

(** ** Ownership *)

Lemma first_filter_none :
  forall A (f : A -> bool) l,
    first (filter f l) = None <-> (forall x, In x l -> f x = false).
Proof.
  intros A f l. induction l as [|a l IH]; simpl.
  - split; [intros _ x []|reflexivity].
  - destruct (f a) eqn:E; simpl.
    + split; [discriminate|]. intros H. rewrite (H a) in E by auto.
      discriminate.
    + rewrite IH. split.
      * intros H x [<-|Hx]; auto.
      * intros H x Hx. apply H. auto.
Qed.

Lemma first_filter_some :
  forall A (f : A -> bool) l x,
    first (filter f l) = Some x -> In x l /\ f x = true.
Proof.
  intros A f l x. induction l as [|a l IH]; simpl; [discriminate|].
  destruct (f a) eqn:E; simpl.
  - intros H. inversion H. subst. auto.
  - intros H. destruct (IH H). auto.
Qed.

Lemma select_owned_none :
  forall d cid u, select_owned d cid u = None <-> ~ owned d cid u.
Proof.
  intros d cid u. unfold select_owned, owned. rewrite first_filter_none.
  split.
  - intros H (c & Hin & Hid & Hu). specialize (H c Hin).
    rewrite Hid, Hu, !Z.eqb_refl in H. discriminate.
  - intros H c Hin.
    destruct (conv_id c =? cid) eqn:E1; [|reflexivity].
    destruct (conv_user_id c =? user_id u) eqn:E2; [|reflexivity].
    exfalso. apply H. exists c. apply Z.eqb_eq in E1, E2. auto.
Qed.

Lemma select_owned_some :
  forall d cid u c,
    select_owned d cid u = Some c ->
    In c (conversations d) /\ conv_id c = cid /\ conv_user_id c = user_id u.
Proof.
  intros d cid u c H. apply first_filter_some in H. destruct H as [Hin H].
  apply andb_true_iff in H. destruct H as [H1 H2].
  apply Z.eqb_eq in H1, H2. auto.
Qed.

Lemma owned_select :
  forall d cid u, owned d cid u -> exists c, select_owned d cid u = Some c.
Proof.
  intros d cid u H. destruct (select_owned d cid u) as [c|] eqn:E.
  - eauto.
  - apply select_owned_none in E. contradiction.
Qed.

(** ** send_message *)

Lemma send_message_rejects :
  forall env cid content_ u w,
    ~ owned (db w) cid u ->
    send_message env cid content_ u w = (Raise conversation_not_found, w).
Proof.
  intros env cid content_ u w H. apply select_owned_none in H.
  unfold send_message. run. rewrite H. reflexivity.
Qed.

Lemma send_message_run :
  forall env cid content_ u w,
    owned (db w) cid u ->
    let d := db w in
    let sp := build_system_prompt u (select_profile d u) in
    let h := get_conversation_history env d cid None in
    let r := completion_request env sp h content_ in
    let o := completion_outcome env r in
    let um := mkMessage (next_id (map msg_id (messages d))) cid (lit "user")
                content_ (clock env (ticks w)) in
    let am := mkMessage (next_id (map msg_id (messages d ++ [um]))) cid
                (lit "assistant") (reply_for content_ o)
                (clock env (S (ticks w))) in
    send_message env cid content_ u w
      = (Ok (mkChatResponse cid (message_read um) (message_read am)),
         mkWorld (mkDB (users d) (profiles d)
                    (touch cid (clock env (S (S (ticks w))))
                       (conversations d))
                    (messages d ++ [um; am]))
                 (S (S (S (ticks w))))
                 (sent w ++ requests_for o r)).
Proof.
  intros env cid content_ u w H. apply owned_select in H.
  destruct H as [c Hc]. pose proof (select_owned_some _ _ _ _ Hc) as (_ & Hid & _).
  intros d sp h r o um am.
  unfold send_message, add_message, add_message_and_touch.
  unfold bind at 1. unfold get_db at 1. cbv beta iota.
  rewrite Hc. run.
  rewrite call_claude_run. simpl.
  fold d sp h. fold r. fold o. fold um.
  rewrite Hid. unfold touch. rewrite <- app_assoc. reflexivity.
Qed.

(** ** get_conversation_history *)

Set Implicit Arguments.

Section OrderBy.

Variable A : Type.
Variable key : A -> Z.

Let ge_key (a b : A) : Prop := key b <= key a.

Lemma insert_desc_perm :
  forall x l, Permutation (insert_desc key x l) (x :: l).
Proof.
  intros x l. induction l as [|y l IH]; simpl.
  - apply Permutation_refl.
  - destruct (key y <=? key x).
    + apply Permutation_refl.
    + eapply perm_trans; [apply perm_skip, IH|apply perm_swap].
Qed.

Lemma order_by_desc_perm :
  forall l, Permutation (order_by_desc key l) l.
Proof.
  induction l as [|x l IH]; simpl.
  - apply perm_nil.
  - eapply perm_trans; [apply insert_desc_perm|apply perm_skip, IH].
Qed.

Lemma insert_desc_sorted :
  forall x l,
    StronglySorted ge_key l -> StronglySorted ge_key (insert_desc key x l).
Proof.
  intros x l H. induction H as [|y l Hs IH Hall]; simpl.
  - constructor; constructor.
  - destruct (key y <=? key x) eqn:E.
    + apply Z.leb_le in E. constructor.
      * constructor; assumption.
      * constructor; [unfold ge_key; lia|].
        eapply Forall_impl; [|exact Hall]. unfold ge_key. intros; lia.
    + apply Z.leb_gt in E. constructor; [exact IH|].
      eapply Permutation_Forall.
      * apply Permutation_sym, insert_desc_perm.
      * constructor; [unfold ge_key; lia|exact Hall].
Qed.

Lemma order_by_desc_sorted :
  forall l, StronglySorted ge_key (order_by_desc key l).
Proof.
  induction l as [|x l IH]; simpl.
  - constructor.
  - apply insert_desc_sorted, IH.
Qed.



End OrderBy.

Unset Implicit Arguments.





(** The sample conversation has three messages; a window of two keeps the
    two newest, oldest first. *)
Example history_of_sample :
  get_conversation_history env_unconfigured sample_db 1 (Some 2)
  = [mkTurn (lit "assistant") (lit "hello");
     mkTurn (lit "user") (lit "prices?")].
Proof. reflexivity. Qed.

(** ** send_message, as a whole *)


(** ** Conversation endpoints *)

Lemma get_conversation_rejects :
  forall cid u w,
    ~ owned (db w) cid u ->
    get_conversation cid u w = (Raise conversation_not_found, w).
Proof.
  intros cid u w H. apply select_owned_none in H.
  unfold get_conversation. run. rewrite H. reflexivity.
Qed.

Lemma get_conversation_accepts :
  forall cid u w,
    owned (db w) cid u -> exists cd, get_conversation cid u w = (Ok cd, w).
Proof.
  intros cid u w H. apply owned_select in H. destruct H as [c Hc].
  unfold get_conversation. run. rewrite Hc. eexists. reflexivity.
Qed.

Lemma delete_conversation_rejects :
  forall cid u w,
    ~ owned (db w) cid u ->
    delete_conversation cid u w = (Raise conversation_not_found, w).
Proof.
  intros cid u w H. apply select_owned_none in H.
  unfold delete_conversation. run. rewrite H. reflexivity.
Qed.

Lemma delete_conversation_accepts :
  forall cid u w,
    owned (db w) cid u -> exists w', delete_conversation cid u w = (Ok tt, w').
Proof.
  intros cid u w H. apply owned_select in H. destruct H as [c Hc].
  unfold delete_conversation. run. rewrite Hc. eexists. reflexivity.
Qed.

Lemma owned_dec :
  forall d cid u, owned d cid u \/ ~ owned d cid u.
Proof.
  intros d cid u. destruct (select_owned d cid u) as [c|] eqn:E.
  - left. apply select_owned_some in E. exists c. exact E.
  - right. apply select_owned_none. exact E.
Qed.

(** ** What the completion service is handed *)

Lemma next_id_fresh :
  forall ids i, In i ids -> i < next_id ids.
Proof.
  intros ids i. unfold next_id. induction ids as [|j ids IH]; simpl.
  - intros [].
  - intros [->|H]; [lia|]. specialize (IH H). lia.
Qed.

Lemma sql_limit_incl :
  forall A (n : Z) (rows : list A) x, In x (sql_limit n rows) -> In x rows.
Proof.
  intros A n rows x. unfold sql_limit. destruct (n <? 0); [auto|].
  rewrite <- (firstn_skipn (Z.to_nat n) rows) at 2.
  intros H. apply in_or_app. left. exact H.
Qed.

Lemma history_from_storage :
  forall env d cid limit turn,
    In turn (get_conversation_history env d cid limit) ->
    exists m, In m (messages d) /\ conversation_id m = cid
              /\ turn = mkTurn (role m) (content m).
Proof.
  intros env d cid limit turn H.
  unfold get_conversation_history, history_rows in H.
  apply in_map_iff in H. destruct H as (m & <- & Hm).
  apply in_rev in Hm. apply sql_limit_incl in Hm.
  apply (Permutation_in _ (order_by_desc_perm msg_created_at _)) in Hm.
  unfold messages_of in Hm. apply filter_In in Hm. destruct Hm as [Hin Hc].
  apply Z.eqb_eq in Hc. exists m. auto.
Qed.

(** C5: in a successful [send_message] the history is read from the
    database as it was before the user message was stored (the stored user
    message is not a row of that database, and every history entry is a row
    of it), and a configured client receives exactly one request, whose
    messages are that history followed by the new user message as the last
    turn; an unconfigured client receives none. *)
Theorem history_precedes_user_message :
  forall env cid content_ u w,
    owned (db w) cid u ->
    let prior := get_conversation_history env (db w) cid None in
    exists um am w',
      send_message env cid content_ u w
        = (Ok (mkChatResponse cid (message_read um) (message_read am)), w')
      /\ messages (db w') = messages (db w) ++ [um; am]
      /\ ~ In um (messages (db w))
      /\ (forall turn, In turn prior ->
            exists m, In m (messages (db w)) /\ conversation_id m = cid
                      /\ turn = mkTurn (role m) (content m))
      /\ (forall client, claude_client env = Some client ->
            exists req,
              sent w' = sent w ++ [req]
              /\ req_messages req = prior ++ [mkTurn (lit "user") content_]
              /\ req_system req
                 = build_system_prompt u (select_profile (db w) u))
      /\ (claude_client env = None -> sent w' = sent w).
Proof.
  intros env cid content_ u w Ho prior.
  pose proof (send_message_run env _ content_ _ w Ho) as Hrun.
  cbv zeta in Hrun.
  eexists. eexists. eexists.
  split; [exact Hrun|]. simpl.
  split; [reflexivity|]. split; [|split; [|split]].
  - intros Hin. apply (in_map msg_id) in Hin. apply next_id_fresh in Hin.
    simpl in Hin. lia.
  - intros turn Hin. eapply history_from_storage. exact Hin.
  - intros client Hc. eexists. split; [|split].
    + unfold completion_outcome. rewrite Hc.
      match goal with
      | |- context [client ?r] => destruct (client r) as [[|t ts]|e]
      end; reflexivity.
    + reflexivity.
    + reflexivity.
  - intros Hc. unfold completion_outcome. rewrite Hc. simpl.
    apply app_nil_r.
Qed.

Lemma history_precedes_user_message_witness :
  owned (db sample_world) 1 alice
  /\ exists um am w',
       send_message env_answering 1 (lit "test") alice sample_world
         = (Ok (mkChatResponse 1 (message_read um) (message_read am)), w')
       /\ exists req,
            sent w' = sent sample_world ++ [req]
            /\ req_messages req
               = get_conversation_history env_answering sample_db 1 None
                 ++ [mkTurn (lit "user") (lit "test")].
Proof.
  assert (Ho : owned (db sample_world) 1 alice).
  { eexists. split; [left; reflexivity|]. split; reflexivity. }
  split; [exact Ho|].
  destruct (history_precedes_user_message env_answering 1 (lit "test") alice
              sample_world Ho)
    as (um & am & w' & Hrun & _ & _ & _ & Hreq & _).
  exists um, am, w'. split; [exact Hrun|].
  destruct (Hreq _ eq_refl) as (req & Hs & Hm & _).
  exists req. split; [exact Hs|exact Hm].
Defined.

(** ** quick_message *)


Lemma touch_ids :
  forall cid t cs, map conv_id (touch cid t cs) = map conv_id cs.
Proof.
  intros cid t cs. unfold touch. rewrite map_map. apply map_ext.
  intros c. destruct (conv_id c =? cid); reflexivity.
Qed.


Lemma quick_message_existing :
  forall env content_ cid u w,
    cid <> 0 ->
    quick_message env content_ (Some cid) u w
      = send_message env cid content_ u w.
Proof.
  intros env content_ cid u w Hnz. unfold quick_message. simpl.
  destruct (cid =? 0) eqn:E; [apply Z.eqb_eq in E; contradiction|]. simpl.
  destruct (owned_dec (db w) cid u) as [Ho|Hn].
  - destruct (owned_select _ _ _ Ho) as [c Hc].
    pose proof (select_owned_some _ _ _ _ Hc) as (_ & Hid & _).
    unfold bind at 1. unfold bind at 1. unfold get_db at 1. cbv beta iota.
    rewrite Hc. unfold ret at 1. cbv beta iota. rewrite Hid. reflexivity.
  - rewrite (send_message_rejects env _ content_ _ _ Hn).
    apply select_owned_none in Hn.
    unfold bind at 1. unfold bind at 1. unfold get_db at 1. cbv beta iota.
    rewrite Hn. reflexivity.
Qed.



(** ** login *)

Lemma str_eqb_eq : forall a b, str_eqb a b = true <-> a = b.
Proof.
  intros a b. unfold str_eqb.
  destruct (list_eq_dec N.eq_dec a b); split; auto; discriminate.
Qed.

Lemma select_user_none :
  forall d e,
    select_user_by_email d e = None
    <-> (forall user, In user (users d) -> email user <> e).
Proof.
  intros d e. unfold select_user_by_email. rewrite first_filter_none.
  split; intros H user Hin.
  - intros He. apply str_eqb_eq in He. rewrite (H user Hin) in He.
    discriminate.
  - destruct (str_eqb (email user) e) eqn:E; [|reflexivity].
    apply str_eqb_eq in E. destruct (H user Hin E).
Qed.

Lemma select_user_some :
  forall d e user,
    select_user_by_email d e = Some user ->
    In user (users d) /\ email user = e.
Proof.
  intros d e user H. apply first_filter_some in H. destruct H as [Hin H].
  apply str_eqb_eq in H. auto.
Qed.

(** C7 (amended): [login] changes nothing; an unknown email or a wrong
    password fails with 401 Unauthorized, correct credentials of a disabled
    account fail with 403 Forbidden, correct credentials of an active
    account return a bearer token, and there is no other failure. *)
Theorem login_outcomes :
  forall auth env login_data w,
    let r := fst (login auth env login_data w) in
    snd (login auth env login_data w) = w
    /\ ((forall user, In user (users (db w)) ->
                      email user <> login_email login_data) ->
        r = Raise incorrect_email_or_password)
    /\ (forall user,
          select_user_by_email (db w) (login_email login_data) = Some user ->
          In user (users (db w)) /\ email user = login_email login_data
          /\ (verify_password auth (login_password login_data)
                (hashed_password user) = false ->
              r = Raise incorrect_email_or_password)
          /\ (verify_password auth (login_password login_data)
                (hashed_password user) = true ->
              is_active user = false ->
              r = Raise user_account_disabled)
          /\ (verify_password auth (login_password login_data)
                (hashed_password user) = true ->
              is_active user = true ->
              r = Ok (mkToken
                        (create_access_token auth (email user)
                           (ACCESS_TOKEN_EXPIRE_MINUTES (settings env)))
                        (lit "bearer"))))
    /\ (forall e, r = Raise e ->
          (e = incorrect_email_or_password
           /\ status_code e = HTTP_401_UNAUTHORIZED)
          \/ (e = user_account_disabled
              /\ status_code e = HTTP_403_FORBIDDEN))
    /\ HTTP_403_FORBIDDEN <> HTTP_401_UNAUTHORIZED.
Proof.
  intros auth env login_data w r. unfold r, login. run.
  destruct (select_user_by_email (db w) (login_email login_data))
    as [user|] eqn:E.
  - apply select_user_some in E. destruct E as [Hin He].
    destruct (verify_password auth (login_password login_data)
                (hashed_password user)) eqn:V;
      destruct (is_active user) eqn:Act; simpl;
      (split; [reflexivity|]);
      (split; [intros H; destruct (H user Hin He)|]);
      (split; [intros user0 H0; inversion H0; subst user0;
               rewrite V, Act;
               repeat split; auto; intros; discriminate|]);
      (split; [|discriminate]);
      intros e H; inversion H; auto.
  - simpl. split; [reflexivity|]. split; [reflexivity|].
    split; [intros user H; discriminate|].
    split; [|discriminate].
    intros e H. inversion H. auto.
Qed.

(** C7 as stated fails for a disabled account with correct credentials:
    the failure is 403 Forbidden, not 401 Unauthorized. *)
Lemma login_disabled_is_forbidden :
  login sample_auth env_unconfigured
    (mkLoginRequest (lit "b@x.com") (lit "pw2")) sample_world
    = (Raise (mkHTTPException 403 (lit "User account is disabled.") []),
       sample_world)
  /\ is_active bob = false
  /\ verify_password sample_auth (lit "pw2") (hashed_password bob) = true
  /\ 403 <> HTTP_401_UNAUTHORIZED.
Proof.
  repeat split; try (vm_compute; reflexivity).
  vm_compute. discriminate.
Qed.

(** ** update_profile *)

Lemma setattr_frame :
  forall p k v,
    profile_id (setattr p k v) = profile_id p
    /\ profile_user_id (setattr p k v) = profile_user_id p
    /\ profile_updated_at (setattr p k v) = profile_updated_at p.
Proof.
  intros p k v. destruct k; repeat split.
Qed.

Lemma apply_update_data_frame :
  forall l p,
    profile_id (apply_update_data l p) = profile_id p
    /\ profile_user_id (apply_update_data l p) = profile_user_id p.
Proof.
  unfold apply_update_data.
  induction l as [|[k v] l IH]; intros p; simpl; [auto|].
  destruct (IH (setattr p k v)) as [H1 H2].
  destruct (setattr_frame p k v) as (H3 & H4 & _).
  rewrite H1, H2, H3, H4. auto.
Qed.


Lemma first_filter_nil :
  forall A (f : A -> bool) l, first (filter f l) = None -> filter f l = [].
Proof.
  intros A f l H. destruct (filter f l); [reflexivity|discriminate].
Qed.

Lemma first_filter_replace :
  forall (f : UserProfile -> bool) l p0 p2 i,
    first (filter f l) = Some p0 ->
    i = profile_id p0 ->
    f p2 = true ->
    first (filter f (map (fun p => if profile_id p =? i then p2 else p) l))
    = Some p2.
Proof.
  intros f l p0 p2 i H Hid Hf. induction l as [|a l IH]; simpl in *.
  - discriminate.
  - destruct (f a) eqn:Ea.
    + simpl in H. inversion H. subst a.
      rewrite Hid, Z.eqb_refl, Hf. reflexivity.
    + destruct (profile_id a =? i).
      * rewrite Hf. reflexivity.
      * rewrite Ea. apply IH. exact H.
Qed.


(** ** Scenarios *)

(** Sixty characters and no conversation id: the title is the first fifty
    characters and the marker. *)
Example quick_message_sixty :
  map title (conversations
               (db (snd (quick_message env_unconfigured sixty_chars None
                           alice sample_world))))
  = [Some (lit "Extinguishers"); Some (lit "Alarms");
     Some (repeat 97%N 50 ++ lit "...")].
Proof. vm_compute. reflexivity. Qed.

(** Without a client the stored assistant message is the demo reply. *)
Example send_message_demo :
  last (messages
          (db (snd (send_message env_unconfigured 1 (lit "hi") alice
                      sample_world))))
       (mkMessage 0 0 [] [] 0)
  = mkMessage 5 1 (lit "assistant")
      (lit "[Demo mode - Claude API not configured] I received your message: 'hi'. To enable real responses, set your ANTHROPIC_API_KEY.")
      1001.
Proof. vm_compute. reflexivity. Qed.

(** A failing provider becomes an apology in the transcript. *)
Example send_message_failing :
  map content
    (messages (db (snd (send_message env_failing 1 (lit "hi") alice
                          sample_world))))
  = [lit "hi"; lit "hello"; lit "prices?"; lit "hi";
     lit "I apologize, but I encountered an error: Connection error.. Please try again."].
Proof. vm_compute. reflexivity. Qed.

(** Bob does not own conversation 1, and conversation 7 does not exist:
    the same exception either way. *)
Example fetch_foreign_and_missing :
  get_conversation 1 bob sample_world
  = (Raise (mkHTTPException 404 (lit "Conversation not found") []),
     sample_world)
  /\ get_conversation 7 bob sample_world
     = (Raise (mkHTTPException 404 (lit "Conversation not found") []),
        sample_world).
Proof. split; vm_compute; reflexivity. Qed.

(** The prompt for the sample profile lists name, company and notes: the
    phone is absent and the preferences are the empty string. *)
Example prompt_of_sample :
  build_system_prompt alice (Some alice_profile)
  = base_prompt ++ LF ++ LF
    ++ lit "Known information about this customer:" ++ LF
    ++ lit "Customer name: Alice" ++ LF
    ++ lit "Company: Acme" ++ LF
    ++ lit "Notes: prefers email".
Proof. vm_compute. reflexivity. Qed.

(** Updating only the phone keeps the other fields of the sample profile. *)
Example update_only_phone :
  fst (update_profile env_unconfigured (only_phone (Some (lit "555-0100")))
         alice sample_world)
  = Ok (mkUserProfile 1 1 (Some (lit "Alice")) (Some (lit "Acme"))
          (Some (lit "555-0100")) (Some []) (Some (lit "prefers email"))
          1000).
Proof. vm_compute. reflexivity. Qed.

(** * Further properties of the endpoints *)

(** ** delete_conversation *)

Lemma delete_conversation_run :
  forall cid u w,
    owned (db w) cid u ->
    delete_conversation cid u w
    = (Ok tt,
       mkWorld (mkDB (users (db w)) (profiles (db w))
                  (filter (fun c => negb (conv_id c =? cid))
                          (conversations (db w)))
                  (filter (fun m => negb (conversation_id m =? cid))
                          (messages (db w))))
               (ticks w) (sent w)).
Proof.
  intros cid u w H. destruct (owned_select _ _ _ H) as [c Hc].
  pose proof (select_owned_some _ _ _ _ Hc) as (_ & Hid & _).
  unfold delete_conversation. run. rewrite Hc, Hid. reflexivity.
Qed.

Lemma negb_eqb_true : forall a b : Z, negb (a =? b) = true <-> a <> b.
Proof.
  intros a b. rewrite negb_true_iff. apply Z.eqb_neq.
Qed.

(** X1: a successful [delete_conversation] removes the conversation with
    the given id and every message of it, and nothing else: the other
    conversations, the messages of the other conversations, the users and
    the profiles stay as they were. *)
Theorem delete_conversation_removes :
  forall cid u w,
    owned (db w) cid u ->
    exists w',
      delete_conversation cid u w = (Ok tt, w')
      /\ (forall c, In c (conversations (db w'))
                    <-> In c (conversations (db w)) /\ conv_id c <> cid)
      /\ (forall m, In m (messages (db w'))
                    <-> In m (messages (db w)) /\ conversation_id m <> cid)
      /\ messages_of (db w') cid = []
      /\ (forall cid', cid' <> cid ->
            messages_of (db w') cid' = messages_of (db w) cid')
      /\ users (db w') = users (db w)
      /\ profiles (db w') = profiles (db w).
Proof.
  intros cid u w Ho. eexists. split; [apply delete_conversation_run, Ho|].
  simpl. split; [|split; [|split; [|split]]].
  - intros c. rewrite filter_In, negb_eqb_true. reflexivity.
  - intros m. rewrite filter_In, negb_eqb_true. reflexivity.
  - unfold messages_of. simpl.
    induction (messages (db w)) as [|m l IH]; simpl; [reflexivity|].
    destruct (conversation_id m =? cid) eqn:E; simpl; [exact IH|].
    rewrite E. exact IH.
  - intros cid' Hne. unfold messages_of. simpl.
    induction (messages (db w)) as [|m l IH]; simpl; [reflexivity|].
    destruct (conversation_id m =? cid) eqn:E; simpl.
    + apply Z.eqb_eq in E.
      destruct (conversation_id m =? cid') eqn:E'; [|exact IH].
      apply Z.eqb_eq in E'. congruence.
    + rewrite IH. reflexivity.
  - auto.
Qed.

Lemma delete_conversation_removes_witness :
  owned (db sample_world) 1 alice
  /\ exists w',
       delete_conversation 1 alice sample_world = (Ok tt, w')
       /\ messages_of (db w') 1 = [].
Proof.
  assert (Ho : owned (db sample_world) 1 alice).
  { eexists. split; [left; reflexivity|]. split; reflexivity. }
  split; [exact Ho|].
  destruct (delete_conversation_removes 1 alice sample_world Ho)
    as (w' & Hrun & _ & _ & Hnone & _).
  exists w'. split; [exact Hrun|exact Hnone].
Defined.

(** X2: once a conversation is deleted, fetching it, sending to it and
    deleting it again fail with the not-found exception, for every user,
    and change nothing. *)
Theorem deleted_conversation_is_gone :
  forall env cid content_ u u' w,
    owned (db w) cid u ->
    let w' := snd (delete_conversation cid u w) in
    get_conversation cid u' w' = (Raise conversation_not_found, w')
    /\ send_message env cid content_ u' w'
       = (Raise conversation_not_found, w')
    /\ delete_conversation cid u' w' = (Raise conversation_not_found, w').
Proof.
  intros env cid content_ u u' w Ho w'.
  assert (Hn : ~ owned (db w') cid u').
  { unfold w'. rewrite (delete_conversation_run cid u w Ho). simpl.
    intros (c & Hin & Hid & _). apply filter_In in Hin.
    destruct Hin as [_ Hin]. apply negb_eqb_true in Hin. contradiction. }
  split; [|split].
  - apply get_conversation_rejects, Hn.
  - apply send_message_rejects, Hn.
  - apply delete_conversation_rejects, Hn.
Qed.

Lemma deleted_conversation_is_gone_witness :
  owned (db sample_world) 1 alice
  /\ get_conversation 1 alice (snd (delete_conversation 1 alice sample_world))
     = (Raise conversation_not_found,
        snd (delete_conversation 1 alice sample_world)).
Proof.
  assert (Ho : owned (db sample_world) 1 alice).
  { eexists. split; [left; reflexivity|]. split; reflexivity. }
  split; [exact Ho|].
  destruct (deleted_conversation_is_gone env_unconfigured 1 (lit "hi") alice
              alice sample_world Ho) as [Hget _].
  exact Hget.
Defined.

(** ** quick_message and send_message: what they leave alone *)

Lemma touch_identity :
  forall cid t cs,
    map conversation_identity (touch cid t cs) = map conversation_identity cs.
Proof.
  intros cid t cs. unfold touch. rewrite map_map. apply map_ext.
  intros c. destruct (conv_id c =? cid); reflexivity.
Qed.

Lemma touch_others :
  forall cid t cs c, In c cs -> conv_id c <> cid -> In c (touch cid t cs).
Proof.
  intros cid t cs c Hin Hne. unfold touch. apply in_map_iff.
  exists c. split; [|exact Hin].
  destruct (conv_id c =? cid) eqn:E; [apply Z.eqb_eq in E; contradiction|].
  reflexivity.
Qed.

Lemma messages_of_app :
  forall d cid l,
    filter (fun m => conversation_id m =? cid) (messages d ++ l)
    = messages_of d cid ++ filter (fun m => conversation_id m =? cid) l.
Proof.
  intros d cid l. unfold messages_of. apply filter_app.
Qed.

(** X4: whatever its outcome, [send_message] leaves the messages of every
    other conversation as they were, keeps every other conversation row,
    and never changes the id, the owner, the title or the creation time of
    any conversation; users and profiles are untouched. *)
Theorem send_message_frame :
  forall env cid content_ u w,
    let w' := snd (send_message env cid content_ u w) in
    (forall cid', cid' <> cid ->
       messages_of (db w') cid' = messages_of (db w) cid')
    /\ (forall c, In c (conversations (db w)) -> conv_id c <> cid ->
          In c (conversations (db w')))
    /\ map conversation_identity (conversations (db w'))
       = map conversation_identity (conversations (db w))
    /\ users (db w') = users (db w)
    /\ profiles (db w') = profiles (db w).
Proof.
  intros env cid content_ u w.
  destruct (owned_dec (db w) cid u) as [Ho|Hn].
  - rewrite (send_message_run env cid content_ u w Ho). simpl.
    split; [|split; [|split; [|split]]].
    + intros cid' Hne. unfold messages_of at 1. simpl.
      rewrite messages_of_app. simpl.
      destruct (cid =? cid') eqn:E; [apply Z.eqb_eq in E; congruence|].
      apply app_nil_r.
    + intros c Hin Hne. apply touch_others; assumption.
    + apply touch_identity.
    + reflexivity.
    + reflexivity.
  - rewrite (send_message_rejects env cid content_ u w Hn). simpl.
    repeat split; auto.
Qed.

(** ** Invariants of the tables *)

Lemma NoDup_snoc_next_id :
  forall ids, NoDup ids -> NoDup (ids ++ [next_id ids]).
Proof.
  intros ids H. apply NoDup_app; [exact H|repeat constructor; intros []|].
  intros i Hin [<-|[]]. apply next_id_fresh in Hin. lia.
Qed.

Lemma send_message_unique_keys :
  forall env cid content_ u w,
    unique_keys (db w) ->
    unique_keys (db (snd (send_message env cid content_ u w))).
Proof.
  intros env cid content_ u w [Hm Hc].
  destruct (owned_dec (db w) cid u) as [Ho|Hn].
  - rewrite (send_message_run env cid content_ u w Ho). unfold unique_keys.
    simpl. rewrite touch_ids. split; [|exact Hc].
    replace (messages (db w) ++ [_; _])
      with ((messages (db w) ++ [mkMessage
              (next_id (map msg_id (messages (db w)))) cid (lit "user")
              content_ (clock env (ticks w))]) ++
            [mkMessage
              (next_id (map msg_id (messages (db w) ++ [mkMessage
                 (next_id (map msg_id (messages (db w)))) cid (lit "user")
                 content_ (clock env (ticks w))]))) cid (lit "assistant")
              (reply_for content_
                 (completion_outcome env
                    (completion_request env
                       (build_system_prompt u (select_profile (db w) u))
                       (get_conversation_history env (db w) cid None)
                       content_)))
              (clock env (S (ticks w)))])
      by (rewrite <- app_assoc; reflexivity).
    rewrite (map_app msg_id (_ ++ _)). simpl.
    apply NoDup_snoc_next_id.
    rewrite map_app. simpl. apply NoDup_snoc_next_id. exact Hm.
  - rewrite (send_message_rejects env cid content_ u w Hn). simpl.
    split; assumption.
Qed.

Lemma new_conversation_run :
  forall env u t w,
    new_conversation env u t w
    = (let c := mkConversation (next_id (map conv_id (conversations (db w))))
                  (user_id u) t (clock env (ticks w))
                  (clock env (S (ticks w))) in
       (Ok c,
        mkWorld (mkDB (users (db w)) (profiles (db w))
                   (conversations (db w) ++ [c]) (messages (db w)))
                (S (S (ticks w))) (sent w))).
Proof.
  intros env u t w. reflexivity.
Qed.

Lemma quick_message_cases :
  forall env content_ cidopt u w,
    (exists cid, quick_message env content_ cidopt u w
                 = send_message env cid content_ u w)
    \/ (exists c w1,
          new_conversation env u (Some (derive_title content_)) w
            = (Ok c, w1)
          /\ quick_message env content_ cidopt u w
             = send_message env (conv_id c) content_ u w1).
Proof.
  intros env content_ [cid|] u w.
  - destruct (Z.eq_dec cid 0) as [->|Hnz].
    + right. rewrite new_conversation_run. cbv zeta.
      eexists. eexists. split; reflexivity.
    + left. exists cid. apply quick_message_existing, Hnz.
  - right. rewrite new_conversation_run. cbv zeta.
    eexists. eexists. split; reflexivity.
Qed.

(** X5: [send_message], [quick_message] and [create_conversation] keep the
    primary keys of the message table and of the conversation table free
    of repetitions. *)
Theorem keys_stay_unique :
  forall env cid content_ cidopt supplied u w,
    unique_keys (db w) ->
    unique_keys (db (snd (send_message env cid content_ u w)))
    /\ unique_keys (db (snd (quick_message env content_ cidopt u w)))
    /\ unique_keys (db (snd (create_conversation env supplied u w))).
Proof.
  intros env cid content_ cidopt supplied u w Hk.
  assert (Hnew : forall t,
            unique_keys (db (snd (new_conversation env u t w)))).
  { intros t. rewrite new_conversation_run. simpl.
    destruct Hk as [Hm Hc]. split; [exact Hm|]. simpl.
    rewrite map_app. simpl. apply NoDup_snoc_next_id, Hc. }
  split; [|split].
  - apply send_message_unique_keys, Hk.
  - destruct (quick_message_cases env content_ cidopt u w)
      as [[cid' ->]|(c & w1 & Hn & ->)].
    + apply send_message_unique_keys, Hk.
    + apply send_message_unique_keys.
      specialize (Hnew (Some (derive_title content_))).
      rewrite Hn in Hnew. exact Hnew.
  - unfold create_conversation. apply Hnew.
Qed.

Lemma keys_stay_unique_witness :
  unique_keys (db sample_world)
  /\ unique_keys
       (db (snd (quick_message env_answering (lit "hi") None alice
                   sample_world))).
Proof.
  assert (Hk : unique_keys (db sample_world)).
  { split; simpl; repeat constructor; simpl; intuition lia. }
  split; [exact Hk|].
  destruct (keys_stay_unique env_answering 1 (lit "hi") None None alice
              sample_world Hk) as (_ & Hq & _).
  exact Hq.
Defined.

Lemma touch_keeps_id :
  forall cid t cs c,
    In c cs -> exists c', In c' (touch cid t cs) /\ conv_id c' = conv_id c.
Proof.
  intros cid t cs c Hin.
  exists (if conv_id c =? cid then set_updated_at c t else c). split.
  - unfold touch. apply in_map_iff. exists c. auto.
  - destruct (conv_id c =? cid); reflexivity.
Qed.

Lemma send_message_belong :
  forall env cid content_ u w,
    messages_belong (db w) ->
    messages_belong (db (snd (send_message env cid content_ u w))).
Proof.
  intros env cid content_ u w Hb.
  destruct (owned_dec (db w) cid u) as [Ho|Hn].
  - rewrite (send_message_run env cid content_ u w Ho).
    unfold messages_belong. simpl. intros m Hin.
    apply in_app_or in Hin. destruct Hin as [Hin|Hin].
    + destruct (Hb m Hin) as (c & Hc & Hid).
      destruct (touch_keeps_id cid (clock env (S (S (ticks w)))) _ c Hc)
        as (c' & Hc' & Hid').
      exists c'. split; [exact Hc'|congruence].
    + destruct Ho as (c & Hc & Hid & _).
      destruct (touch_keeps_id cid (clock env (S (S (ticks w)))) _ c Hc)
        as (c' & Hc' & Hid').
      exists c'. split; [exact Hc'|].
      destruct Hin as [<-|[<-|[]]]; simpl; congruence.
  - rewrite (send_message_rejects env cid content_ u w Hn). exact Hb.
Qed.

(** X6: if every message belongs to a stored conversation, this is still so
    after [send_message], after [quick_message] and after
    [delete_conversation]. *)
Theorem messages_keep_their_conversation :
  forall env cid content_ cidopt u w,
    messages_belong (db w) ->
    messages_belong (db (snd (send_message env cid content_ u w)))
    /\ messages_belong (db (snd (quick_message env content_ cidopt u w)))
    /\ messages_belong (db (snd (delete_conversation cid u w))).
Proof.
  intros env cid content_ cidopt u w Hb. split; [|split].
  - apply send_message_belong, Hb.
  - destruct (quick_message_cases env content_ cidopt u w)
      as [[cid' ->]|(c & w1 & Hn & ->)].
    + apply send_message_belong, Hb.
    + apply send_message_belong.
      rewrite new_conversation_run in Hn. cbv zeta in Hn.
      inversion Hn. subst. unfold messages_belong. simpl.
      intros m Hin. destruct (Hb m Hin) as (c0 & Hc0 & Hid).
      exists c0. split; [apply in_or_app; left; exact Hc0|exact Hid].
  - destruct (owned_dec (db w) cid u) as [Ho|Hn].
    + rewrite (delete_conversation_run cid u w Ho).
      unfold messages_belong. simpl. intros m Hin.
      apply filter_In in Hin. destruct Hin as [Hin Hne].
      apply negb_eqb_true in Hne.
      destruct (Hb m Hin) as (c & Hc & Hid).
      exists c. split; [|exact Hid].
      apply filter_In. split; [exact Hc|].
      apply negb_eqb_true. congruence.
    + rewrite (delete_conversation_rejects cid u w Hn). exact Hb.
Qed.

Lemma messages_keep_their_conversation_witness :
  messages_belong (db sample_world)
  /\ messages_belong
       (db (snd (delete_conversation 1 alice sample_world))).
Proof.
  assert (Hb : messages_belong (db sample_world)).
  { intros m Hin. simpl in Hin.
    exists (mkConversation 1 1 (Some (lit "Extinguishers")) 20 24).
    split; [left; reflexivity|].
    destruct Hin as [<-|[<-|[<-|[]]]]; reflexivity. }
  split; [exact Hb|].
  destruct (messages_keep_their_conversation env_unconfigured 1 (lit "hi")
              None alice sample_world Hb) as (_ & _ & Hd).
  exact Hd.
Defined.

(** ** The history after a turn, and the default window *)

Lemma order_by_desc_newest :
  forall A (key : A -> Z) l x y,
    (forall z, In z l -> key z < key x) ->
    key x < key y ->
    order_by_desc key (l ++ [x; y]) = y :: x :: order_by_desc key l.
Proof.
  intros A key l x y Hl Hxy. unfold order_by_desc.
  rewrite fold_right_app. simpl.
  destruct (key y <=? key x) eqn:E; [apply Z.leb_le in E; lia|].
  clear E. induction l as [|z l IH]; simpl; [reflexivity|].
  rewrite IH by (intros z' Hz'; apply Hl; right; exact Hz').
  simpl.
  assert (Hz : key z < key x) by (apply Hl; left; reflexivity).
  destruct (key y <=? key z) eqn:E1; [apply Z.leb_le in E1; lia|].
  destruct (key x <=? key z) eqn:E2; [apply Z.leb_le in E2; lia|].
  reflexivity.
Qed.

Lemma sql_limit_two_more :
  forall A (n : Z) (a b : A) rows,
    2 < n ->
    sql_limit n (a :: b :: rows) = a :: b :: sql_limit (n - 2) rows.
Proof.
  intros A n a b rows H. unfold sql_limit.
  destruct (n <? 0) eqn:E1; [apply Z.ltb_lt in E1; lia|].
  destruct (n - 2 <? 0) eqn:E2; [apply Z.ltb_lt in E2; lia|].
  replace (Z.to_nat n) with (S (S (Z.to_nat (n - 2)))) by lia.
  reflexivity.
Qed.

(** X7: when the clock readings of a turn are later than the creation
    times of the conversation's messages and increase, the history read
    after a successful [send_message] with a window of more than two is
    the earlier history for a window smaller by two, followed by the new
    user turn and the assistant's reply. *)
Theorem send_message_extends_history :
  forall env cid content_ u w limit,
    owned (db w) cid u ->
    (forall m, In m (messages_of (db w) cid) ->
               msg_created_at m < clock env (ticks w)) ->
    clock env (ticks w) < clock env (S (ticks w)) ->
    2 < effective_limit env limit ->
    exists um am w',
      send_message env cid content_ u w
        = (Ok (mkChatResponse cid (message_read um) (message_read am)), w')
      /\ role um = lit "user" /\ content um = content_
      /\ role am = lit "assistant"
      /\ get_conversation_history env (db w') cid limit
         = get_conversation_history env (db w) cid
             (Some (effective_limit env limit - 2))
           ++ [mkTurn (lit "user") content_;
               mkTurn (lit "assistant") (content am)].
Proof.
  intros env cid content_ u w limit Ho Hold Hclock Hlim.
  pose proof (send_message_run env cid content_ u w Ho) as Hrun.
  cbv zeta in Hrun.
  eexists. eexists. eexists. split; [exact Hrun|]. simpl.
  repeat (split; [reflexivity|]).
  unfold get_conversation_history, history_rows.
  unfold messages_of at 1. simpl. rewrite messages_of_app. simpl.
  rewrite Z.eqb_refl.
  rewrite order_by_desc_newest by (simpl; assumption).
  rewrite sql_limit_two_more by exact Hlim.
  simpl. rewrite !map_app. simpl. rewrite <- !app_assoc. simpl.
  destruct (effective_limit env limit - 2 =? 0) eqn:E0;
    [apply Z.eqb_eq in E0; lia|reflexivity].
Qed.

Lemma send_message_extends_history_witness :
  owned (db sample_world) 1 alice
  /\ (forall m, In m (messages_of (db sample_world) 1) ->
        msg_created_at m < clock env_answering (ticks sample_world))
  /\ clock env_answering (ticks sample_world)
     < clock env_answering (S (ticks sample_world))
  /\ 2 < effective_limit env_answering (Some 3)
  /\ exists um am w',
       send_message env_answering 1 (lit "test") alice sample_world
         = (Ok (mkChatResponse 1 (message_read um) (message_read am)), w')
       /\ get_conversation_history env_answering (db w') 1 (Some 3)
          = get_conversation_history env_answering sample_db 1 (Some 1)
            ++ [mkTurn (lit "user") (lit "test");
                mkTurn (lit "assistant") (content am)].
Proof.
  assert (Ho : owned (db sample_world) 1 alice).
  { eexists. split; [left; reflexivity|]. split; reflexivity. }
  assert (Hold : forall m, In m (messages_of (db sample_world) 1) ->
                   msg_created_at m < clock env_answering
                                        (ticks sample_world)).
  { intros m Hin. simpl in Hin.
    destruct Hin as [<-|[<-|[<-|[]]]]; simpl; unfold sample_clock; lia. }
  assert (Hclock : clock env_answering (ticks sample_world)
                   < clock env_answering (S (ticks sample_world))).
  { simpl. unfold sample_clock. lia. }
  assert (Hlim : 2 < effective_limit env_answering (Some 3)).
  { simpl. lia. }
  split; [exact Ho|]. split; [exact Hold|]. split; [exact Hclock|].
  split; [exact Hlim|].
  destruct (send_message_extends_history env_answering 1 (lit "test") alice
              sample_world (Some 3) Ho Hold Hclock Hlim)
    as (um & am & w' & Hrun & _ & _ & _ & Hh).
  exists um, am, w'. split; [exact Hrun|exact Hh].
Defined.



(** ** Reading conversations *)

Set Implicit Arguments.

Section OrderByAsc.

Variable A : Type.
Variable key : A -> Z.

Let le_key (a b : A) : Prop := key a <= key b.

Lemma insert_asc_perm :
  forall x l, Permutation (insert_asc key x l) (x :: l).
Proof.
  intros x l. induction l as [|y l IH]; simpl.
  - apply Permutation_refl.
  - destruct (key x <=? key y).
    + apply Permutation_refl.
    + eapply perm_trans; [apply perm_skip, IH|apply perm_swap].
Qed.

Lemma order_by_asc_perm :
  forall l, Permutation (order_by_asc key l) l.
Proof.
  induction l as [|x l IH]; simpl.
  - apply perm_nil.
  - eapply perm_trans; [apply insert_asc_perm|apply perm_skip, IH].
Qed.

Lemma insert_asc_sorted :
  forall x l,
    StronglySorted le_key l -> StronglySorted le_key (insert_asc key x l).
Proof.
  intros x l H. induction H as [|y l Hs IH Hall]; simpl.
  - constructor; constructor.
  - destruct (key x <=? key y) eqn:E.
    + apply Z.leb_le in E. constructor.
      * constructor; assumption.
      * constructor; [exact E|].
        eapply Forall_impl; [|exact Hall]. unfold le_key. intros; lia.
    + apply Z.leb_gt in E. constructor; [exact IH|].
      eapply Permutation_Forall.
      * apply Permutation_sym, insert_asc_perm.
      * constructor; [unfold le_key; lia|exact Hall].
Qed.

Lemma order_by_asc_sorted :
  forall l, StronglySorted le_key (order_by_asc key l).
Proof.
  induction l as [|x l IH]; simpl.
  - constructor.
  - apply insert_asc_sorted, IH.
Qed.

End OrderByAsc.

Unset Implicit Arguments.

(** X9: for a conversation the caller owns, [get_conversation] changes
    nothing and returns the id, title and timestamps of a stored
    conversation of the caller together with all messages of the
    conversation, none left out or repeated, in non-decreasing
    creation-time order. *)
Theorem get_conversation_detail :
  forall cid u w,
    owned (db w) cid u ->
    exists detail c rows,
      get_conversation cid u w = (Ok detail, w)
      /\ In c (conversations (db w))
      /\ conv_id c = cid /\ conv_user_id c = user_id u
      /\ cd_id detail = cid
      /\ cd_title detail = title c
      /\ cd_created_at detail = created_at c
      /\ cd_updated_at detail = updated_at c
      /\ cd_messages detail = map message_read rows
      /\ Permutation rows (messages_of (db w) cid)
      /\ chronological rows.
Proof.
  intros cid u w Ho. destruct (owned_select _ _ _ Ho) as [c Hc].
  pose proof (select_owned_some _ _ _ _ Hc) as (Hin & Hid & Hu).
  unfold get_conversation. run. rewrite Hc.
  eexists. exists c. eexists. split; [reflexivity|]. simpl.
  repeat (split; [first [assumption|reflexivity]|]).
  split.
  - apply order_by_asc_perm.
  - unfold chronological. apply order_by_asc_sorted.
Qed.

Lemma get_conversation_detail_witness :
  owned (db sample_world) 1 alice
  /\ exists detail,
       get_conversation 1 alice sample_world = (Ok detail, sample_world)
       /\ cd_id detail = 1.
Proof.
  assert (Ho : owned (db sample_world) 1 alice).
  { eexists. split; [left; reflexivity|]. split; reflexivity. }
  split; [exact Ho|].
  destruct (get_conversation_detail 1 alice sample_world Ho)
    as (detail & c & rows & Hrun & _ & _ & _ & Hid & _).
  exists detail. split; [exact Hrun|exact Hid].
Defined.

Lemma filter_split_perm :
  forall A (f : A -> bool) l,
    Permutation (filter f l ++ filter (fun x => negb (f x)) l) l.
Proof.
  intros A f l. induction l as [|a l IH]; simpl; [constructor|].
  destruct (f a); simpl.
  - constructor. exact IH.
  - eapply perm_trans; [apply Permutation_sym, Permutation_middle|].
    constructor. exact IH.
Qed.

(** X10: [list_conversations] changes nothing and returns exactly the
    caller's conversations (with the conversations of other users they
    make up the table), the most recently updated first. *)
Theorem list_conversations_scoped :
  forall u w,
    exists cs others,
      list_conversations u w = (Ok cs, w)
      /\ (forall c, In c cs
                    <-> In c (conversations (db w))
                        /\ conv_user_id c = user_id u)
      /\ Permutation (cs ++ others) (conversations (db w))
      /\ (forall c, In c others -> conv_user_id c <> user_id u)
      /\ newest_updated_first cs.
Proof.
  intros u w. unfold list_conversations. run.
  eexists.
  exists (filter (fun c => negb (conv_user_id c =? user_id u))
                 (conversations (db w))).
  split; [reflexivity|].
  pose proof (order_by_desc_perm updated_at
                (filter (fun c => conv_user_id c =? user_id u)
                        (conversations (db w)))) as Hp.
  split; [|split; [|split]].
  - intros c. split.
    + intros Hin. apply (Permutation_in _ Hp) in Hin.
      apply filter_In in Hin. destruct Hin as [Hin E].
      apply Z.eqb_eq in E. auto.
    + intros [Hin E]. apply (Permutation_in _ (Permutation_sym Hp)).
      apply filter_In. split; [exact Hin|]. apply Z.eqb_eq. exact E.
  - eapply perm_trans; [apply Permutation_app_tail, Hp|].
    apply filter_split_perm.
  - intros c Hin. apply filter_In in Hin. destruct Hin as [_ E].
    apply negb_eqb_true in E. exact E.
  - unfold newest_updated_first. apply order_by_desc_sorted.
Qed.

(** ** The profile *)

Lemma update_profile_stored :
  forall env profile_in u w,
    exists p w',
      update_profile env profile_in u w = (Ok p, w')
      /\ select_profile (db w') u = Some p.
Proof.
  intros env profile_in u w. unfold update_profile. run.
  destruct (select_profile (db w) u) as [p0|] eqn:E; simpl.
  - pose proof (first_filter_some _ _ _ _ E) as [_ Hu].
    apply Z.eqb_eq in Hu.
    destruct (apply_update_data_frame
                (model_dump_exclude_unset profile_in) p0) as [Hid Huid].
    eexists. eexists. split; [reflexivity|].
    unfold select_profile. simpl.
    apply (first_filter_replace _ _ p0).
    + exact E.
    + simpl. exact Hid.
    + simpl. rewrite Huid, Hu. apply Z.eqb_refl.
  - destruct (apply_update_data_frame
                (model_dump_exclude_unset profile_in)
                (blank_profile (user_id u) (clock env (ticks w))))
      as [Hid Huid].
    eexists. eexists. split; [reflexivity|].
    unfold select_profile in *. simpl.
    rewrite filter_app. rewrite (first_filter_nil _ _ _ E). simpl.
    rewrite Huid. simpl. rewrite Z.eqb_refl. reflexivity.
Qed.

Lemma get_profile_existing :
  forall env u w p,
    select_profile (db w) u = Some p -> get_profile env u w = (Ok p, w).
Proof.
  intros env u w p H. unfold get_profile. run. rewrite H. reflexivity.
Qed.

Lemma get_profile_creates :
  forall env u w,
    select_profile (db w) u = None ->
    get_profile env u w
    = (let p := set_profile_id
                  (blank_profile (user_id u) (clock env (ticks w)))
                  (next_id (map profile_id (profiles (db w)))) in
       (Ok p,
        mkWorld (mkDB (users (db w)) (profiles (db w) ++ [p])
                   (conversations (db w)) (messages (db w)))
                (S (ticks w)) (sent w))).
Proof.
  intros env u w E. unfold get_profile.
  unfold bind at 1. unfold get_db at 1. cbv beta iota.
  rewrite E. reflexivity.
Qed.

(** X11: [get_profile] returns the caller's stored profile and changes
    nothing when there is one; otherwise it stores and returns a new
    profile of the caller under an unused id with all five fields [None];
    either way a second call returns the same profile and changes
    nothing. *)
Theorem get_profile_get_or_create :
  forall env u w,
    exists p w1,
      get_profile env u w = (Ok p, w1)
      /\ profile_user_id p = user_id u
      /\ (forall p0, select_profile (db w) u = Some p0 -> p = p0 /\ w1 = w)
      /\ (select_profile (db w) u = None ->
          profiles (db w1) = profiles (db w) ++ [p]
          /\ ~ In (profile_id p) (map profile_id (profiles (db w)))
          /\ (forall k, getattr p k = None)
          /\ users (db w1) = users (db w)
          /\ conversations (db w1) = conversations (db w)
          /\ messages (db w1) = messages (db w))
      /\ (forall env', get_profile env' u w1 = (Ok p, w1)).
Proof.
  intros env u w.
  destruct (select_profile (db w) u) as [p0|] eqn:E.
  - exists p0, w. rewrite (get_profile_existing env u w p0 E).
    split; [reflexivity|].
    pose proof (first_filter_some _ _ _ _ E) as [_ Hu].
    apply Z.eqb_eq in Hu.
    split; [exact Hu|]. split; [|split].
    + intros p1 H. inversion H. auto.
    + discriminate.
    + intros env'. apply get_profile_existing, E.
  - rewrite (get_profile_creates env u w E). cbv zeta.
    eexists. eexists. split; [reflexivity|]. simpl.
    split; [reflexivity|]. split; [discriminate|]. split.
    + intros _. split; [reflexivity|]. split.
      * intros Hin. apply next_id_fresh in Hin. lia.
      * split; [intros k; destruct k; reflexivity|auto].
    + intros env'. apply get_profile_existing.
      unfold select_profile in *. simpl.
      rewrite filter_app, (first_filter_nil _ _ _ E). simpl.
      rewrite Z.eqb_refl. reflexivity.
Qed.

(** X12: after [update_profile], [get_profile] returns the profile the
    update returned and changes nothing. *)
Theorem get_profile_after_update :
  forall env env' profile_in u w,
    exists p w',
      update_profile env profile_in u w = (Ok p, w')
      /\ get_profile env' u w' = (Ok p, w').
Proof.
  intros env env' profile_in u w.
  destruct (update_profile_stored env profile_in u w) as (p & w' & Hr & Hs).
  exists p, w'. split; [exact Hr|].
  apply get_profile_existing, Hs.
Qed.

(** ** Registration *)

Lemma register_user_run :
  forall h env user_in w,
    select_user_by_email (db w) (uc_email user_in) = None ->
    register_user h env user_in w
    = (let user := mkUser (next_id (map user_id (users (db w))))
                     (uc_email user_in) (h (uc_password user_in)) true
                     (clock env (ticks w)) in
       let profile := set_profile_id
                        (blank_profile (user_id user)
                           (clock env (S (ticks w))))
                        (next_id (map profile_id (profiles (db w)))) in
       (Ok user,
        mkWorld (mkDB (users (db w) ++ [user]) (profiles (db w) ++ [profile])
                   (conversations (db w)) (messages (db w)))
                (S (S (ticks w))) (sent w))).
Proof.
  intros h env user_in w E. unfold register_user.
  unfold bind at 1. unfold get_db at 1. cbv beta iota.
  rewrite E. reflexivity.
Qed.

Lemma register_user_taken :
  forall h env user_in w existing,
    select_user_by_email (db w) (uc_email user_in) = Some existing ->
    register_user h env user_in w = (Raise email_already_registered, w).
Proof.
  intros h env user_in w existing E. unfold register_user.
  unfold bind at 1. unfold get_db at 1. cbv beta iota.
  rewrite E. reflexivity.
Qed.

Lemma select_user_appended :
  forall d d' user,
    select_user_by_email d (email user) = None ->
    users d' = users d ++ [user] ->
    select_user_by_email d' (email user) = Some user.
Proof.
  intros d d' user E Hu. unfold select_user_by_email in *.
  rewrite Hu, filter_app, (first_filter_nil _ _ _ E). simpl.
  assert (Hrefl : str_eqb (email user) (email user) = true)
    by (apply str_eqb_eq; reflexivity).
  rewrite Hrefl. reflexivity.
Qed.

(** X13: [register_user] fails with 400 "Email already registered." and
    changes nothing when a stored user has the email; otherwise it appends
    one active user under an unused id, with the given email and the hash
    of the given password, and one profile of that user with all five
    fields [None], and touches neither conversations nor messages. *)
Theorem register_user_outcomes :
  forall h env user_in w,
    ((exists user, In user (users (db w))
                   /\ email user = uc_email user_in) ->
     register_user h env user_in w = (Raise email_already_registered, w))
    /\ ((forall user, In user (users (db w)) ->
                      email user <> uc_email user_in) ->
        exists user profile w',
          register_user h env user_in w = (Ok user, w')
          /\ users (db w') = users (db w) ++ [user]
          /\ email user = uc_email user_in
          /\ hashed_password user = h (uc_password user_in)
          /\ is_active user = true
          /\ ~ In (user_id user) (map user_id (users (db w)))
          /\ profiles (db w') = profiles (db w) ++ [profile]
          /\ profile_user_id profile = user_id user
          /\ (forall k, getattr profile k = None)
          /\ conversations (db w') = conversations (db w)
          /\ messages (db w') = messages (db w))
    /\ status_code email_already_registered = 400
    /\ detail email_already_registered = lit "Email already registered.".
Proof.
  intros h env user_in w. split; [|split; [|split; reflexivity]].
  - intros (user & Hin & He).
    destruct (select_user_by_email (db w) (uc_email user_in))
      as [existing|] eqn:E.
    + apply (register_user_taken h env user_in w existing E).
    + rewrite select_user_none in E. destruct (E user Hin He).
  - intros Hnew. apply select_user_none in Hnew.
    rewrite (register_user_run h env user_in w Hnew). cbv zeta.
    eexists. eexists. eexists. split; [reflexivity|]. simpl.
    repeat (split; [reflexivity|]).
    split; [intros Hin; apply next_id_fresh in Hin; lia|].
    repeat (split; [reflexivity|]).
    split; [intros k; destruct k; reflexivity|]. auto.
Qed.

Lemma login_found :
  forall auth env login_data w user,
    select_user_by_email (db w) (login_email login_data) = Some user ->
    login auth env login_data w
    = (if negb (verify_password auth (login_password login_data)
                  (hashed_password user))
       then Raise incorrect_email_or_password
       else if negb (is_active user)
       then Raise user_account_disabled
       else Ok (mkToken
                  (create_access_token auth (email user)
                     (ACCESS_TOKEN_EXPIRE_MINUTES (settings env)))
                  (lit "bearer")),
       w).
Proof.
  intros auth env login_data w user H. unfold login. run. rewrite H.
  destruct (verify_password auth (login_password login_data)
              (hashed_password user)); simpl; [|reflexivity].
  destruct (is_active user); reflexivity.
Qed.

(** X14: after a successful [register_user], [login] with the same email
    and password returns a bearer token whenever [verify_password] accepts
    the password against its own hash, and fails with 401 for every
    password it does not accept against that hash. *)
Theorem login_after_register :
  forall auth h env env' user_in w,
    (forall user, In user (users (db w)) ->
                  email user <> uc_email user_in) ->
    verify_password auth (uc_password user_in) (h (uc_password user_in))
      = true ->
    let w' := snd (register_user h env user_in w) in
    login auth env'
      (mkLoginRequest (uc_email user_in) (uc_password user_in)) w'
    = (Ok (mkToken
             (create_access_token auth (uc_email user_in)
                (ACCESS_TOKEN_EXPIRE_MINUTES (settings env')))
             (lit "bearer")), w')
    /\ (forall pw,
          verify_password auth pw (h (uc_password user_in)) = false ->
          login auth env' (mkLoginRequest (uc_email user_in) pw) w'
          = (Raise incorrect_email_or_password, w')).
Proof.
  intros auth h env env' user_in w Hnew Hv w'.
  apply select_user_none in Hnew.
  assert (Hsel : select_user_by_email (db w') (uc_email user_in)
                 = Some (mkUser (next_id (map user_id (users (db w))))
                           (uc_email user_in) (h (uc_password user_in))
                           true (clock env (ticks w)))).
  { unfold w'. rewrite (register_user_run h env user_in w Hnew).
    cbv zeta.
    apply (select_user_appended (db w) _
             (mkUser (next_id (map user_id (users (db w))))
                (uc_email user_in) (h (uc_password user_in)) true
                (clock env (ticks w)))); [exact Hnew|reflexivity]. }
  split.
  - rewrite (login_found auth env'
               (mkLoginRequest (uc_email user_in) (uc_password user_in))
               w' _ Hsel). simpl.
    rewrite Hv. reflexivity.
  - intros pw Hpw.
    rewrite (login_found auth env' (mkLoginRequest (uc_email user_in) pw)
               w' _ Hsel). simpl.
    rewrite Hpw. reflexivity.
Qed.

Lemma login_after_register_witness :
  (forall user, In user (users (db sample_world)) ->
                email user <> uc_email carol_in)
  /\ verify_password sample_auth (uc_password carol_in)
       (sample_hash (uc_password carol_in)) = true
  /\ login sample_auth env_answering
       (mkLoginRequest (lit "c@x.com") (lit "pw3"))
       (snd (register_user sample_hash env_unconfigured carol_in
               sample_world))
     = (Ok (mkToken (lit "token-for-c@x.com") (lit "bearer")),
        snd (register_user sample_hash env_unconfigured carol_in
               sample_world)).
Proof.
  assert (Hnew : forall user, In user (users (db sample_world)) ->
                   email user <> uc_email carol_in).
  { intros user Hin. simpl in Hin.
    destruct Hin as [<-|[<-|[]]]; vm_compute; discriminate. }
  assert (Hv : verify_password sample_auth (uc_password carol_in)
                 (sample_hash (uc_password carol_in)) = true).
  { vm_compute. reflexivity. }
  split; [exact Hnew|]. split; [exact Hv|].
  destruct (login_after_register sample_auth sample_hash env_unconfigured
              env_answering carol_in sample_world Hnew Hv) as [Hlogin _].
  exact Hlogin.
Defined.

(** X15: whatever the outcome of a [register_user] call, registering the
    same email once more, with any password, fails with the 400 exception
    and changes nothing. *)
Theorem register_user_twice :
  forall h h' env env' e pw pw' w,
    let w1 := snd (register_user h env (mkUserCreate e pw) w) in
    register_user h' env' (mkUserCreate e pw') w1
    = (Raise email_already_registered, w1).
Proof.
  intros h h' env env' e pw pw' w w1.
  destruct (select_user_by_email (db w) e) as [existing|] eqn:E.
  - assert (Hw : w1 = w).
    { unfold w1.
      rewrite (register_user_taken h env (mkUserCreate e pw) w existing E).
      reflexivity. }
    rewrite Hw.
    apply (register_user_taken h' env' (mkUserCreate e pw') w existing E).
  - apply (register_user_taken h' env' (mkUserCreate e pw') w1
             (mkUser (next_id (map user_id (users (db w)))) e (h pw) true
                (clock env (ticks w)))).
    unfold w1. rewrite (register_user_run h env (mkUserCreate e pw) w E).
    cbv zeta.
    apply (select_user_appended (db w) _
             (mkUser (next_id (map user_id (users (db w)))) e (h pw) true
                (clock env (ticks w)))); [exact E|reflexivity].
Qed.

(** ** The derived title *)

(** X16: the title derived from a message has at most 53 characters and
    agrees with the message on its first 50 characters. *)
Theorem derive_title_bounded :
  forall content_,
    (List.length (derive_title content_) <= 53)%nat
    /\ firstn 50 (derive_title content_) = firstn 50 content_.
Proof.
  intros content_. unfold derive_title.
  destruct (50 <? Z.of_nat (List.length content_)) eqn:E.
  - apply Z.ltb_lt in E.
    assert (Hlen : List.length (firstn 50 content_) = 50%nat)
      by (rewrite length_firstn; lia).
    split.
    + rewrite length_app, Hlen. simpl. lia.
    + rewrite firstn_app, Hlen, firstn_firstn. simpl.
      apply app_nil_r.
  - apply Z.ltb_ge in E. split; [lia|reflexivity].
Qed.

(** ** Other users' profiles *)

Lemma NoDup_map_injective :
  forall A B (f : A -> B) l a b,
    NoDup (map f l) -> In a l -> In b l -> f a = f b -> a = b.
Proof.
  intros A B f l a b. induction l as [|x l IH]; simpl; [intros _ []|].
  intros Hnd Ha Hb Hf. inversion Hnd as [|? ? Hx Hl]; subst.
  destruct Ha as [->|Ha], Hb as [->|Hb].
  - reflexivity.
  - exfalso. apply Hx. rewrite Hf. apply in_map, Hb.
  - exfalso. apply Hx. rewrite <- Hf. apply in_map, Ha.
  - apply IH; assumption.
Qed.

Lemma update_profile_existing_run :
  forall env profile_in u w p0,
    select_profile (db w) u = Some p0 ->
    update_profile env profile_in u w
    = (let p2 := set_profile_updated_at
                   (apply_update_data
                      (model_dump_exclude_unset profile_in) p0)
                   (clock env (ticks w)) in
       (Ok p2,
        mkWorld (mkDB (users (db w))
                   (map (fun p => if profile_id p =? profile_id p2
                                  then p2 else p) (profiles (db w)))
                   (conversations (db w)) (messages (db w)))
                (S (ticks w)) (sent w))).
Proof.
  intros env profile_in u w p0 E. unfold update_profile.
  unfold bind at 1. unfold get_db at 1. cbv beta iota.
  rewrite E. reflexivity.
Qed.

Lemma update_profile_new_run :
  forall env profile_in u w,
    select_profile (db w) u = None ->
    update_profile env profile_in u w
    = (let p3 := set_profile_id
                   (set_profile_updated_at
                      (apply_update_data
                         (model_dump_exclude_unset profile_in)
                         (blank_profile (user_id u) (clock env (ticks w))))
                      (clock env (S (ticks w))))
                   (next_id (map profile_id (profiles (db w)))) in
       (Ok p3,
        mkWorld (mkDB (users (db w)) (profiles (db w) ++ [p3])
                   (conversations (db w)) (messages (db w)))
                (S (S (ticks w))) (sent w))).
Proof.
  intros env profile_in u w E. unfold update_profile.
  unfold bind at 1. unfold get_db at 1. cbv beta iota.
  rewrite E. reflexivity.
Qed.

Lemma update_profile_profiles :
  forall env profile_in u w,
    (forall p0, select_profile (db w) u = Some p0 ->
       exists p2,
         profile_user_id p2 = user_id u
         /\ profiles (db (snd (update_profile env profile_in u w)))
            = map (fun p => if profile_id p =? profile_id p0
                            then p2 else p) (profiles (db w)))
    /\ (select_profile (db w) u = None ->
        exists p3,
          profile_user_id p3 = user_id u
          /\ profiles (db (snd (update_profile env profile_in u w)))
             = profiles (db w) ++ [p3]).
Proof.
  intros env profile_in u w. split.
  - intros p0 E. rewrite (update_profile_existing_run env profile_in u w p0 E).
    cbv zeta. simpl.
    pose proof (first_filter_some _ _ _ _ E) as [_ Hu].
    apply Z.eqb_eq in Hu.
    destruct (apply_update_data_frame
                (model_dump_exclude_unset profile_in) p0) as [Hid Huid].
    eexists. split; [|rewrite Hid; reflexivity].
    simpl. rewrite Huid. exact Hu.
  - intros E. rewrite (update_profile_new_run env profile_in u w E).
    cbv zeta. simpl.
    destruct (apply_update_data_frame
                (model_dump_exclude_unset profile_in)
                (blank_profile (user_id u) (clock env (ticks w))))
      as [Hid Huid].
    eexists. split; [|reflexivity]. simpl. rewrite Huid. reflexivity.
Qed.

(** X17: when profile ids are unique, [update_profile] neither adds,
    removes nor changes the profile of any other user. *)
Theorem update_profile_leaves_others :
  forall env profile_in u w,
    NoDup (map profile_id (profiles (db w))) ->
    forall q,
      profile_user_id q <> user_id u ->
      (In q (profiles (db (snd (update_profile env profile_in u w))))
       <-> In q (profiles (db w))).
Proof.
  intros env profile_in u w Hnd q Hq.
  destruct (update_profile_profiles env profile_in u w) as [Hsome Hnone].
  destruct (select_profile (db w) u) as [p0|] eqn:E.
  - destruct (Hsome p0 eq_refl) as (p2 & Hu2 & ->).
    pose proof (first_filter_some _ _ _ _ E) as [Hin0 Hu0].
    apply Z.eqb_eq in Hu0.
    rewrite in_map_iff. split.
    + intros (p & Hp & Hin).
      destruct (profile_id p =? profile_id p0); subst q;
        [contradiction|exact Hin].
    + intros Hin. exists q. split; [|exact Hin].
      destruct (profile_id q =? profile_id p0) eqn:Eid; [|reflexivity].
      apply Z.eqb_eq in Eid.
      pose proof (NoDup_map_injective _ _ profile_id _ q p0 Hnd Hin Hin0 Eid).
      subst q. contradiction.
  - destruct (Hnone eq_refl) as (p3 & Hu3 & ->).
    rewrite in_app_iff. simpl. split; [|auto].
    intros [H|[H|[]]]; [exact H|subst q; contradiction].
Qed.

Lemma update_profile_leaves_others_witness :
  NoDup (map profile_id (profiles (db sample_world)))
  /\ profile_user_id alice_profile <> user_id bob
  /\ (In alice_profile
        (profiles (db (snd (update_profile env_unconfigured
                              (only_phone (Some (lit "555-0100"))) bob
                              sample_world))))
      <-> In alice_profile (profiles (db sample_world))).
Proof.
  assert (Hnd : NoDup (map profile_id (profiles (db sample_world)))).
  { simpl. repeat constructor. intros []. }
  assert (Hq : profile_user_id alice_profile <> user_id bob).
  { simpl. lia. }
  split; [exact Hnd|]. split; [exact Hq|].
  apply (update_profile_leaves_others env_unconfigured
           (only_phone (Some (lit "555-0100"))) bob sample_world Hnd
           alice_profile Hq).
Defined.

(** ** Reading after a turn *)

Lemma insert_asc_before_tail :
  forall A (key : A -> Z) z x front back,
    key z <= key x ->
    insert_asc key z (front ++ x :: back)
    = insert_asc key z front ++ x :: back.
Proof.
  intros A key z x front back H. induction front as [|s front IH]; simpl.
  - destruct (key z <=? key x) eqn:E; [reflexivity|].
    apply Z.leb_gt in E. lia.
  - destruct (key z <=? key s); [reflexivity|].
    rewrite IH. reflexivity.
Qed.

Lemma order_by_asc_newest :
  forall A (key : A -> Z) l x y,
    (forall z, In z l -> key z <= key x) ->
    key x <= key y ->
    order_by_asc key (l ++ [x; y]) = order_by_asc key l ++ [x; y].
Proof.
  intros A key l x y Hl Hxy. unfold order_by_asc.
  rewrite fold_right_app. simpl.
  destruct (key x <=? key y) eqn:E; [|apply Z.leb_gt in E; lia].
  clear E. induction l as [|z l IH]; simpl; [reflexivity|].
  rewrite IH by (intros z' Hz'; apply Hl; right; exact Hz').
  apply insert_asc_before_tail. apply Hl. left. reflexivity.
Qed.

Lemma touch_in :
  forall cid t cs c',
    In c' (touch cid t cs) ->
    exists c, In c cs
              /\ ((conv_id c = cid /\ c' = set_updated_at c t)
                  \/ (conv_id c <> cid /\ c' = c)).
Proof.
  intros cid t cs c' H. unfold touch in H. apply in_map_iff in H.
  destruct H as (c & Hc & Hin). exists c. split; [exact Hin|].
  destruct (conv_id c =? cid) eqn:E.
  - apply Z.eqb_eq in E. left. auto.
  - apply Z.eqb_neq in E. right. auto.
Qed.

Lemma touch_touched :
  forall cid t cs c,
    In c cs -> conv_id c = cid -> In (set_updated_at c t) (touch cid t cs).
Proof.
  intros cid t cs c Hin Hid. unfold touch. apply in_map_iff.
  exists c. split; [|exact Hin].
  rewrite Hid, Z.eqb_refl. reflexivity.
Qed.

Lemma get_conversation_run :
  forall cid u w,
    owned (db w) cid u ->
    exists c,
      get_conversation cid u w
      = (Ok (mkConversationDetail (conv_id c) (title c) (created_at c)
               (updated_at c)
               (map message_read
                  (order_by_asc msg_created_at (messages_of (db w) cid)))),
         w).
Proof.
  intros cid u w Ho. destruct (owned_select _ _ _ Ho) as [c Hc].
  exists c. unfold get_conversation. run. rewrite Hc. reflexivity.
Qed.

(** X19: when the clock readings of a turn are not earlier than the
    creation times of the conversation's messages and do not decrease, the
    transcript [get_conversation] returns after a successful
    [send_message] is the transcript it returned before, followed by the
    user message and the assistant message of the turn. *)
Theorem get_conversation_after_send :
  forall env cid content_ u w,
    owned (db w) cid u ->
    (forall m, In m (messages_of (db w) cid) ->
               msg_created_at m <= clock env (ticks w)) ->
    clock env (ticks w) <= clock env (S (ticks w)) ->
    exists um am w' before after,
      send_message env cid content_ u w
        = (Ok (mkChatResponse cid (message_read um) (message_read am)), w')
      /\ get_conversation cid u w = (Ok before, w)
      /\ get_conversation cid u w' = (Ok after, w')
      /\ cd_messages after
         = cd_messages before ++ [message_read um; message_read am].
Proof.
  intros env cid content_ u w Ho Hold Hclock.
  pose proof (send_message_run env cid content_ u w Ho) as Hrun.
  cbv zeta in Hrun.
  destruct (get_conversation_run cid u w Ho) as [c0 Hbefore].
  match type of Hrun with
  | _ = (_, ?w1) => assert (Ho' : owned (db w1) cid u)
  end.
  { destruct Ho as (c & Hin & Hid & Hu).
    exists (set_updated_at c (clock env (S (S (ticks w))))).
    split; [simpl; apply touch_touched; assumption|]. simpl. auto. }
  destruct (get_conversation_run cid u _ Ho') as [c1 Hafter].
  eexists. eexists. eexists. eexists. eexists.
  split; [exact Hrun|]. split; [exact Hbefore|]. split; [exact Hafter|].
  simpl. unfold messages_of at 1. simpl. rewrite messages_of_app. simpl.
  rewrite Z.eqb_refl.
  rewrite order_by_asc_newest by (simpl; assumption).
  rewrite map_app. reflexivity.
Qed.

Lemma get_conversation_after_send_witness :
  owned (db sample_world) 1 alice
  /\ (forall m, In m (messages_of (db sample_world) 1) ->
        msg_created_at m <= clock env_failing (ticks sample_world))
  /\ clock env_failing (ticks sample_world)
     <= clock env_failing (S (ticks sample_world))
  /\ exists um am w' before after,
       send_message env_failing 1 (lit "hi") alice sample_world
         = (Ok (mkChatResponse 1 (message_read um) (message_read am)), w')
       /\ get_conversation 1 alice sample_world = (Ok before, sample_world)
       /\ get_conversation 1 alice w' = (Ok after, w')
       /\ cd_messages after
          = cd_messages before ++ [message_read um; message_read am].
Proof.
  assert (Ho : owned (db sample_world) 1 alice).
  { eexists. split; [left; reflexivity|]. split; reflexivity. }
  assert (Hold : forall m, In m (messages_of (db sample_world) 1) ->
                   msg_created_at m <= clock env_failing
                                         (ticks sample_world)).
  { intros m Hin. simpl in Hin.
    destruct Hin as [<-|[<-|[<-|[]]]]; simpl; unfold sample_clock; lia. }
  assert (Hclock : clock env_failing (ticks sample_world)
                   <= clock env_failing (S (ticks sample_world))).
  { simpl. unfold sample_clock. lia. }
  split; [exact Ho|]. split; [exact Hold|]. split; [exact Hclock|].
  exact (get_conversation_after_send env_failing 1 (lit "hi") alice
           sample_world Ho Hold Hclock).
Defined.

(** X20: when the third clock reading of a turn is later than the
    [updated_at] of the caller's other conversations, the conversation a
    successful [send_message] wrote to comes first in
    [list_conversations], with that reading as its [updated_at]. *)
Theorem list_conversations_after_send :
  forall env cid content_ u w,
    owned (db w) cid u ->
    (forall c, In c (conversations (db w)) ->
               conv_user_id c = user_id u -> conv_id c <> cid ->
               updated_at c < clock env (S (S (ticks w)))) ->
    let w' := snd (send_message env cid content_ u w) in
    exists head rest,
      list_conversations u w' = (Ok (head :: rest), w')
      /\ conv_id head = cid
      /\ updated_at head = clock env (S (S (ticks w))).
Proof.
  intros env cid content_ u w Ho Hothers w'.
  set (T := clock env (S (S (ticks w)))) in *.
  assert (Hconvs : conversations (db w') = touch cid T (conversations (db w))).
  { unfold w'. rewrite (send_message_run env cid content_ u w Ho).
    reflexivity. }
  unfold list_conversations. run. rewrite Hconvs.
  set (mine := filter (fun c => conv_user_id c =? user_id u)
                      (touch cid T (conversations (db w)))).
  pose proof (order_by_desc_perm updated_at mine) as Hp.
  pose proof (order_by_desc_sorted updated_at mine) as Hs.
  destruct Ho as (c & Hin & Hid & Hu).
  assert (Htouched : In (set_updated_at c T) (order_by_desc updated_at mine)).
  { apply (Permutation_in _ (Permutation_sym Hp)). unfold mine.
    apply filter_In. split; [apply touch_touched; assumption|].
    simpl. apply Z.eqb_eq. exact Hu. }
  destruct (order_by_desc updated_at mine) as [|head rest] eqn:E;
    [destruct Htouched|].
  exists head, rest. split; [reflexivity|].
  assert (Hhead : In head mine).
  { apply (Permutation_in _ Hp). left. reflexivity. }
  unfold mine in Hhead. apply filter_In in Hhead.
  destruct Hhead as [Hhead Hmine]. apply Z.eqb_eq in Hmine.
  apply touch_in in Hhead.
  destruct Hhead as (c0 & Hin0 & [[Hid0 ->]|[Hid0 ->]]).
  - simpl. auto.
  - exfalso.
    assert (Hlt : updated_at c0 < T) by (apply Hothers; assumption).
    inversion Hs as [|? ? _ Hall]; subst.
    destruct Htouched as [Heq|Hrest].
    + rewrite Heq in Hid0. simpl in Hid0. contradiction.
    + rewrite Forall_forall in Hall. specialize (Hall _ Hrest).
      simpl in Hall. lia.
Qed.

Lemma list_conversations_after_send_witness :
  owned (db sample_world_two) 1 alice
  /\ (forall c, In c (conversations (db sample_world_two)) ->
        conv_user_id c = user_id alice -> conv_id c <> 1 ->
        updated_at c
        < clock env_unconfigured (S (S (ticks sample_world_two))))
  /\ map conv_id
       (match fst (list_conversations alice sample_world_two) with
        | Ok cs => cs
        | Raise _ => []
        end) = [3; 1]
  /\ exists head rest,
       list_conversations alice
         (snd (send_message env_unconfigured 1 (lit "hi") alice
                 sample_world_two))
       = (Ok (head :: rest),
          snd (send_message env_unconfigured 1 (lit "hi") alice
                 sample_world_two))
       /\ conv_id head = 1
       /\ map conv_id rest = [3].
Proof.
  assert (Ho : owned (db sample_world_two) 1 alice).
  { eexists. split; [left; reflexivity|]. split; reflexivity. }
  assert (Hothers : forall c, In c (conversations (db sample_world_two)) ->
            conv_user_id c = user_id alice -> conv_id c <> 1 ->
            updated_at c
            < clock env_unconfigured (S (S (ticks sample_world_two)))).
  { intros c Hin Hu Hid. simpl in Hin.
    destruct Hin as [<-|[<-|[<-|[]]]]; simpl in *; unfold sample_clock; lia. }
  split; [exact Ho|]. split; [exact Hothers|].
  split; [vm_compute; reflexivity|].
  destruct (list_conversations_after_send env_unconfigured 1 (lit "hi")
              alice sample_world_two Ho Hothers)
    as (head & rest & Hrun & Hid & _).
  exists head, rest. split; [exact Hrun|]. split; [exact Hid|].
  vm_compute in Hrun. inversion Hrun. reflexivity.
Defined.

(** * The handlers over the SQLite binding *)

Ltac hrun :=
  unfold hbind, hret, hraise, lift, bind_params, get_db, put_db, utcnow;
  simpl.

Lemma sqlite_select_owned_run :
  forall cid u w,
    accepted_int cid -> accepted_int (user_id u) ->
    Sqlite.exec_select_owned cid u w
    = (Returns (select_owned (db w) cid u), w).
Proof.
  intros cid u w Hc Hu. unfold Sqlite.exec_select_owned. hrun.
  rewrite Hc, Hu. reflexivity.
Qed.

Lemma sqlite_select_owned_overflow :
  forall cid u w,
    bind_int cid = Some OverflowError ->
    Sqlite.exec_select_owned cid u w = (Raises OverflowError, w).
Proof.
  intros cid u w Hc. unfold Sqlite.exec_select_owned. hrun.
  rewrite Hc. reflexivity.
Qed.

Lemma sqlite_send_message_rejects :
  forall eng env cid content_ u w,
    accepted_int cid -> accepted_int (user_id u) ->
    ~ owned (db w) cid u ->
    Sqlite.send_message eng env cid content_ u w
    = (Raises (Http conversation_not_found), w).
Proof.
  intros eng env cid content_ u w Hc Hu Hn. apply select_owned_none in Hn.
  unfold Sqlite.send_message. unfold hbind at 1.
  rewrite (sqlite_select_owned_run cid u w Hc Hu), Hn. reflexivity.
Qed.

Lemma sqlite_send_message_run :
  forall eng env cid content_ u w,
    accepted_int cid -> accepted_int (user_id u) ->
    accepted_int (effective_limit env None) ->
    accepted_text eng content_ ->
    accepted_text eng (turn_reply env (db w) u cid content_) ->
    owned (db w) cid u ->
    let d := db w in
    let um := mkMessage (next_id (map msg_id (messages d))) cid (lit "user")
                content_ (clock env (ticks w)) in
    let am := mkMessage (next_id (map msg_id (messages d ++ [um]))) cid
                (lit "assistant") (turn_reply env d u cid content_)
                (clock env (S (ticks w))) in
    Sqlite.send_message eng env cid content_ u w
    = (Returns (mkChatResponse cid (message_read um) (message_read am)),
       snd (send_message env cid content_ u w)).
Proof.
  intros eng env cid content_ u w Hc Hu Hl Ht Hr Ho d um am.
  rewrite (send_message_run env cid content_ u w Ho). cbv zeta. simpl snd.
  destruct (owned_select _ _ _ Ho) as [c Hsel].
  pose proof (select_owned_some _ _ _ _ Hsel) as (_ & Hid & _).
  unfold Sqlite.send_message. unfold hbind at 1.
  rewrite (sqlite_select_owned_run cid u w Hc Hu), Hsel.
  unfold accepted_int, accepted_text, turn_reply in *.
  unfold hbind, bind_params. simpl fold_right.
  rewrite Hu, Hc, Hl, Ht. unfold hret at 1 2 3, lift at 1. simpl.
  unfold lift. unfold add_message. run.
  rewrite call_claude_run. simpl.
  rewrite Hr. unfold add_message_and_touch. run. unfold hret. simpl.
  rewrite Hid. unfold touch, um, am, d, turn_reply.
  rewrite <- app_assoc. reflexivity.
Qed.

Lemma bind_int_fails :
  forall z x, bind_int z = Some x -> x = OverflowError.
Proof.
  intros z x. unfold bind_int. destruct (int64 z); congruence.
Qed.

Lemma bind_text_fails :
  forall eng s x,
    bind_text eng s = Some x -> x = UnicodeEncodeError \/ x = DataError.
Proof.
  intros eng s x. unfold bind_text.
  destruct (negb (utf8_encodable s)); [intros H; inversion H; auto|].
  destruct (max_length eng <? utf8_length s)%N; [|discriminate].
  intros H; inversion H; auto.
Qed.

(** Where a turn on an owned conversation stops: at the history query when
    the limit cannot be bound, at the first commit when the content cannot,
    at the second commit (the user message stays stored) when the reply
    cannot. *)
Lemma sqlite_send_message_stages :
  forall eng env cid content_ u w,
    accepted_int cid -> accepted_int (user_id u) ->
    owned (db w) cid u ->
    let d := db w in
    let um := mkMessage (next_id (map msg_id (messages d))) cid (lit "user")
                content_ (clock env (ticks w)) in
    match bind_int (effective_limit env None) with
    | Some x =>
        Sqlite.send_message eng env cid content_ u w = (Raises x, w)
    | None =>
        match bind_text eng content_ with
        | Some x =>
            Sqlite.send_message eng env cid content_ u w
            = (Raises x, mkWorld d (S (ticks w)) (sent w))
        | None =>
            match bind_text eng (turn_reply env d u cid content_) with
            | Some x =>
                exists w',
                  Sqlite.send_message eng env cid content_ u w
                    = (Raises x, w')
                  /\ db w' = mkDB (users d) (profiles d) (conversations d)
                                  (messages d ++ [um])
            | None =>
                exists resp,
                  Sqlite.send_message eng env cid content_ u w
                  = (Returns resp, snd (send_message env cid content_ u w))
            end
        end
    end.
Proof.
  intros eng env cid content_ u w Hc Hu Ho d um.
  destruct (bind_int (effective_limit env None)) as [x|] eqn:El;
    [|destruct (bind_text eng content_) as [x|] eqn:Et;
      [|destruct (bind_text eng (turn_reply env d u cid content_))
          as [x|] eqn:Er]].
  - destruct (owned_select _ _ _ Ho) as [c Hsel].
    unfold Sqlite.send_message. unfold hbind at 1.
    rewrite (sqlite_select_owned_run cid u w Hc Hu), Hsel.
    unfold accepted_int in *. unfold hbind, bind_params. simpl fold_right.
    rewrite Hu, Hc, El. destruct w; reflexivity.
  - destruct (owned_select _ _ _ Ho) as [c Hsel].
    unfold Sqlite.send_message. unfold hbind at 1.
    rewrite (sqlite_select_owned_run cid u w Hc Hu), Hsel.
    unfold accepted_int in *. unfold hbind, bind_params. simpl fold_right.
    rewrite Hu, Hc, El, Et. reflexivity.
  - destruct (owned_select _ _ _ Ho) as [c Hsel].
    unfold Sqlite.send_message. unfold hbind at 1.
    rewrite (sqlite_select_owned_run cid u w Hc Hu), Hsel.
    unfold accepted_int, turn_reply in *.
    unfold hbind, bind_params. simpl fold_right.
    rewrite Hu, Hc, El, Et. unfold hret at 1 2 3, lift at 1. simpl.
    unfold lift. unfold add_message. run.
    rewrite call_claude_run. simpl. unfold d in Er. rewrite Er.
    eexists. split; reflexivity.
  - eexists.
    apply (sqlite_send_message_run eng env cid content_ u w Hc Hu El Et Er Ho).
Qed.

(** C1 (amended): when the binding takes the conversation id, the caller's
    id, the configured history limit, the message content and the reply,
    [send_message] either fails at validation with the not-found exception
    and leaves the world as it was, or returns, and then it has appended
    exactly two messages to the conversation (the user's, then the
    assistant's) and set the conversation's [updated_at] once, whatever the
    completion client is or answers. *)
Theorem sqlite_send_message_two_messages :
  forall eng env cid content_ u w,
    accepted_int cid -> accepted_int (user_id u) ->
    accepted_int (effective_limit env None) ->
    accepted_text eng content_ ->
    accepted_text eng (turn_reply env (db w) u cid content_) ->
    (~ owned (db w) cid u
     /\ Sqlite.send_message eng env cid content_ u w
        = (Raises (Http conversation_not_found), w))
    \/
    (owned (db w) cid u
     /\ exists um am t w',
          Sqlite.send_message eng env cid content_ u w
            = (Returns (mkChatResponse cid (message_read um)
                          (message_read am)), w')
          /\ messages (db w') = messages (db w) ++ [um; am]
          /\ (role um = lit "user" /\ content um = content_
              /\ conversation_id um = cid)
          /\ (role am = lit "assistant" /\ conversation_id am = cid
              /\ content am = turn_reply env (db w) u cid content_)
          /\ List.length (messages_of (db w') cid)
             = (2 + List.length (messages_of (db w) cid))%nat
          /\ conversations (db w') = touch cid t (conversations (db w))
          /\ t = clock env (S (S (ticks w)))
          /\ users (db w') = users (db w)
          /\ profiles (db w') = profiles (db w)).
Proof.
  intros eng env cid content_ u w Hc Hu Hl Ht Hr.
  destruct (owned_dec (db w) cid u) as [Ho|Hn].
  - right. split; [exact Ho|].
    pose proof (sqlite_send_message_run eng env cid content_ u w
                  Hc Hu Hl Ht Hr Ho) as Hrun.
    cbv zeta in Hrun.
    rewrite (send_message_run env cid content_ u w Ho) in Hrun.
    cbv zeta in Hrun. simpl snd in Hrun.
    eexists. eexists. eexists. eexists.
    split; [exact Hrun|]. simpl.
    repeat split.
    unfold messages_of. simpl. rewrite filter_app, length_app. simpl.
    rewrite Z.eqb_refl. simpl. lia.
  - left. split; [exact Hn|].
    apply sqlite_send_message_rejects; assumption.
Qed.

Lemma sqlite_send_message_two_messages_witness :
  accepted_int 1 /\ accepted_int (user_id alice)
  /\ accepted_int (effective_limit env_failing None)
  /\ accepted_text sample_engine (lit "hi")
  /\ accepted_text sample_engine
       (turn_reply env_failing (db sample_world) alice 1 (lit "hi"))
  /\ exists resp w',
       Sqlite.send_message sample_engine env_failing 1 (lit "hi") alice
         sample_world = (Returns resp, w')
       /\ List.length (messages (db w')) = 5%nat.
Proof.
  assert (Hc : accepted_int 1) by reflexivity.
  assert (Hu : accepted_int (user_id alice)) by reflexivity.
  assert (Hl : accepted_int (effective_limit env_failing None))
    by reflexivity.
  assert (Ht : accepted_text sample_engine (lit "hi"))
    by (vm_compute; reflexivity).
  assert (Hr : accepted_text sample_engine
                 (turn_reply env_failing (db sample_world) alice 1
                    (lit "hi")))
    by (vm_compute; reflexivity).
  repeat (split; [assumption|]).
  destruct (sqlite_send_message_two_messages sample_engine env_failing 1
              (lit "hi") alice sample_world Hc Hu Hl Ht Hr)
    as [[Hn _]|[_ (um & am & t & w' & Hrun & Hm & _)]].
  - exfalso. apply Hn. eexists.
    split; [left; reflexivity|]. split; reflexivity.
  - eexists. exists w'. split; [exact Hrun|].
    rewrite Hm, length_app. reflexivity.
Defined.

(** C1 as stated fails: on Alice's own conversation a reply that holds a
    lone surrogate makes the second commit raise, and the call fails with
    the user message stored, no assistant message and no new [updated_at];
    a content that holds one makes the first commit raise, after
    validation, with nothing stored. *)
Lemma send_message_partial_write :
  owned (db sample_world) 1 alice
  /\ fst (Sqlite.send_message sample_engine env_surrogate_reply 1 (lit "hi")
            alice sample_world) = Raises UnicodeEncodeError
  /\ messages (db (snd (Sqlite.send_message sample_engine
                          env_surrogate_reply 1 (lit "hi") alice
                          sample_world)))
     = messages sample_db ++ [mkMessage 4 1 (lit "user") (lit "hi") 1000]
  /\ conversations (db (snd (Sqlite.send_message sample_engine
                               env_surrogate_reply 1 (lit "hi") alice
                               sample_world)))
     = conversations sample_db
  /\ fst (Sqlite.send_message sample_engine env_unconfigured 1
            lone_surrogate alice sample_world) = Raises UnicodeEncodeError
  /\ db (snd (Sqlite.send_message sample_engine env_unconfigured 1
                lone_surrogate alice sample_world)) = sample_db.
Proof.
  split.
  - eexists. split; [left; reflexivity|]. split; reflexivity.
  - repeat split; vm_compute; reflexivity.
Qed.

(** ** Not found, over the binding *)

Lemma sqlite_get_conversation_rejects :
  forall cid u w,
    accepted_int cid -> accepted_int (user_id u) ->
    ~ owned (db w) cid u ->
    Sqlite.get_conversation cid u w
    = (Raises (Http conversation_not_found), w).
Proof.
  intros cid u w Hc Hu Hn. apply select_owned_none in Hn.
  unfold Sqlite.get_conversation. unfold hbind at 1.
  rewrite (sqlite_select_owned_run cid u w Hc Hu), Hn. reflexivity.
Qed.

Lemma sqlite_get_conversation_accepts :
  forall cid u w,
    accepted_int cid -> accepted_int (user_id u) ->
    owned (db w) cid u ->
    exists detail, Sqlite.get_conversation cid u w = (Returns detail, w).
Proof.
  intros cid u w Hc Hu Ho. destruct (owned_select _ _ _ Ho) as [c Hsel].
  unfold Sqlite.get_conversation. unfold hbind at 1.
  rewrite (sqlite_select_owned_run cid u w Hc Hu), Hsel.
  unfold accepted_int in *. hrun. rewrite Hc. simpl.
  eexists. destruct w; reflexivity.
Qed.

Lemma sqlite_delete_conversation_rejects :
  forall cid u w,
    accepted_int cid -> accepted_int (user_id u) ->
    ~ owned (db w) cid u ->
    Sqlite.delete_conversation cid u w
    = (Raises (Http conversation_not_found), w).
Proof.
  intros cid u w Hc Hu Hn. apply select_owned_none in Hn.
  unfold Sqlite.delete_conversation. unfold hbind at 1.
  rewrite (sqlite_select_owned_run cid u w Hc Hu), Hn. reflexivity.
Qed.

Lemma sqlite_delete_conversation_accepts :
  forall cid u w,
    accepted_int cid -> accepted_int (user_id u) ->
    owned (db w) cid u ->
    exists w', Sqlite.delete_conversation cid u w = (Returns tt, w').
Proof.
  intros cid u w Hc Hu Ho. destruct (owned_select _ _ _ Ho) as [c Hsel].
  unfold Sqlite.delete_conversation. unfold hbind at 1.
  rewrite (sqlite_select_owned_run cid u w Hc Hu), Hsel.
  unfold accepted_int in *. hrun. rewrite Hc. simpl.
  eexists. reflexivity.
Qed.

Lemma sqlite_send_message_owned_not_http :
  forall eng env cid content_ u w,
    accepted_int cid -> accepted_int (user_id u) ->
    owned (db w) cid u ->
    forall e,
      fst (Sqlite.send_message eng env cid content_ u w) <> Raises (Http e).
Proof.
  intros eng env cid content_ u w Hc Hu Ho e.
  pose proof (sqlite_send_message_stages eng env cid content_ u w Hc Hu Ho)
    as Hst.
  cbv zeta in Hst.
  destruct (bind_int (effective_limit env None)) as [x|] eqn:El.
  - rewrite Hst. simpl. apply bind_int_fails in El. subst x. discriminate.
  - destruct (bind_text eng content_) as [x|] eqn:Et.
    + rewrite Hst. simpl. apply bind_text_fails in Et.
      destruct Et; subst x; discriminate.
    + destruct (bind_text eng (turn_reply env (db w) u cid content_))
        as [x|] eqn:Er.
      * destruct Hst as (w' & -> & _). simpl. apply bind_text_fails in Er.
        destruct Er; subst x; discriminate.
      * destruct Hst as (resp & ->). simpl. discriminate.
Qed.

(** C4 (amended): when the binding takes the conversation id and the
    caller's id, fetching, deleting and sending each fail with the
    not-found exception exactly when the caller owns no conversation with
    the given id; it is the only exception of the handlers' own, a 404 with
    detail "Conversation not found", the same for an id that does not exist
    and for an id that belongs to somebody else; fetching and deleting an
    owned conversation return. *)
Theorem sqlite_not_found_iff_not_owned :
  forall eng env cid content_ u w,
    accepted_int cid -> accepted_int (user_id u) ->
    let fetched := fst (Sqlite.get_conversation cid u w) in
    let deleted := fst (Sqlite.delete_conversation cid u w) in
    let sent_ := fst (Sqlite.send_message eng env cid content_ u w) in
    (fetched = Raises (Http conversation_not_found)
     <-> ~ owned (db w) cid u)
    /\ (deleted = Raises (Http conversation_not_found)
        <-> ~ owned (db w) cid u)
    /\ (sent_ = Raises (Http conversation_not_found)
        <-> ~ owned (db w) cid u)
    /\ (forall e, fetched = Raises (Http e) \/ deleted = Raises (Http e)
                  \/ sent_ = Raises (Http e) ->
        e = conversation_not_found
        /\ status_code e = HTTP_404_NOT_FOUND
        /\ detail e = lit "Conversation not found")
    /\ (owned (db w) cid u ->
        (exists a, fetched = Returns a) /\ (exists a, deleted = Returns a))
    /\ ((forall c, In c (conversations (db w)) -> conv_id c <> cid) ->
        fetched = Raises (Http conversation_not_found)
        /\ deleted = Raises (Http conversation_not_found)
        /\ sent_ = Raises (Http conversation_not_found))
    /\ ((forall c, In c (conversations (db w)) -> conv_id c = cid ->
                   conv_user_id c <> user_id u) ->
        fetched = Raises (Http conversation_not_found)
        /\ deleted = Raises (Http conversation_not_found)
        /\ sent_ = Raises (Http conversation_not_found)).
Proof.
  intros eng env cid content_ u w Hc Hu fetched deleted sent_.
  assert (Hrej : ~ owned (db w) cid u ->
                 fetched = Raises (Http conversation_not_found)
                 /\ deleted = Raises (Http conversation_not_found)
                 /\ sent_ = Raises (Http conversation_not_found)).
  { intros H. unfold fetched, deleted, sent_.
    rewrite sqlite_get_conversation_rejects,
      sqlite_delete_conversation_rejects,
      sqlite_send_message_rejects by assumption. auto. }
  assert (Hacc : owned (db w) cid u ->
                 (exists a, fetched = Returns a)
                 /\ (exists a, deleted = Returns a)
                 /\ (forall e, sent_ <> Raises (Http e))).
  { intros H. unfold fetched, deleted, sent_.
    destruct (sqlite_get_conversation_accepts cid u w Hc Hu H) as [cd ->].
    destruct (sqlite_delete_conversation_accepts cid u w Hc Hu H)
      as [w1 ->].
    simpl. split; [eauto|]. split; [eauto|].
    apply sqlite_send_message_owned_not_http; assumption. }
  assert (Hiff : forall A (r : Run A),
            (~ owned (db w) cid u ->
             r = Raises (Http conversation_not_found)) ->
            (owned (db w) cid u -> forall e, r <> Raises (Http e)) ->
            (r = Raises (Http conversation_not_found)
             <-> ~ owned (db w) cid u)
            /\ (forall e, r = Raises (Http e) ->
                          e = conversation_not_found)).
  { intros A r H1 H2.
    destruct (owned_dec (db w) cid u) as [Ho|Hn].
    - split.
      + split; [intros He; destruct (H2 Ho _ He)|contradiction].
      + intros e He. destruct (H2 Ho _ He).
    - rewrite (H1 Hn). split.
      + split; auto.
      + intros e He. inversion He. reflexivity. }
  destruct (Hiff _ fetched) as [I1 J1];
    [intros H; apply Hrej, H
    |intros H e; destruct (Hacc H) as ([a ->] & _); discriminate|].
  destruct (Hiff _ deleted) as [I2 J2];
    [intros H; apply Hrej, H
    |intros H e; destruct (Hacc H) as (_ & [a ->] & _); discriminate|].
  destruct (Hiff _ sent_) as [I3 J3];
    [intros H; apply Hrej, H
    |intros H; apply (Hacc H)|].
  split; [exact I1|]. split; [exact I2|]. split; [exact I3|].
  split; [|split; [|split]].
  - intros e [H|[H|H]];
      [apply J1 in H|apply J2 in H|apply J3 in H]; subst e;
      repeat split.
  - intros H. destruct (Hacc H) as (H1 & H2 & _). auto.
  - intros H. apply Hrej. intros (c & Hin & Hid & _). exact (H c Hin Hid).
  - intros H. apply Hrej. intros (c & Hin & Hid & Hu'). exact (H c Hin Hid Hu').
Qed.

Lemma sqlite_not_found_iff_not_owned_witness :
  accepted_int 1 /\ accepted_int (user_id bob)
  /\ ~ owned (db sample_world) 1 bob
  /\ fst (Sqlite.get_conversation 1 bob sample_world)
     = Raises (Http conversation_not_found)
  /\ fst (Sqlite.send_message sample_engine env_answering 1 (lit "hi") bob
            sample_world)
     = Raises (Http conversation_not_found).
Proof.
  assert (Hc : accepted_int 1) by reflexivity.
  assert (Hu : accepted_int (user_id bob)) by reflexivity.
  assert (Hn : ~ owned (db sample_world) 1 bob).
  { intros (c & Hin & Hid & Hu'). simpl in Hin.
    destruct Hin as [<-|[<-|[]]]; simpl in *; lia. }
  split; [exact Hc|]. split; [exact Hu|]. split; [exact Hn|].
  destruct (sqlite_not_found_iff_not_owned sample_engine env_answering 1
              (lit "hi") bob sample_world Hc Hu)
    as (I1 & _ & I3 & _).
  split; [apply I1, Hn|apply I3, Hn].
Defined.

(** C4 as stated fails for an id outside the signed 64-bit range: no
    conversation has the id, and fetching, deleting and sending fail with
    the binding's [OverflowError], not with the not-found exception. *)
Lemma not_found_overflow :
  ~ owned (db sample_world) (2 ^ 63) alice
  /\ Sqlite.get_conversation (2 ^ 63) alice sample_world
     = (Raises OverflowError, sample_world)
  /\ Sqlite.delete_conversation (2 ^ 63) alice sample_world
     = (Raises OverflowError, sample_world)
  /\ Sqlite.send_message sample_engine env_answering (2 ^ 63) (lit "hi")
       alice sample_world
     = (Raises OverflowError, sample_world).
Proof.
  split.
  - intros (c & Hin & Hid & _). simpl in Hin.
    destruct Hin as [<-|[<-|[]]]; simpl in Hid; discriminate.
  - repeat split; vm_compute; reflexivity.
Qed.

(** ** quick_message, over the binding *)

(** X3: when the binding takes the ids, [quick_message] with a non-zero id
    of a conversation the caller does not own fails with the not-found
    exception and changes nothing: no conversation is created and no
    message is stored. *)
Theorem sqlite_quick_message_foreign_conversation :
  forall eng env content_ cid u w,
    cid <> 0 ->
    accepted_int cid -> accepted_int (user_id u) ->
    ~ owned (db w) cid u ->
    Sqlite.quick_message eng env content_ (Some cid) u w
    = (Raises (Http conversation_not_found), w).
Proof.
  intros eng env content_ cid u w Hnz Hc Hu Hn.
  apply select_owned_none in Hn.
  unfold Sqlite.quick_message. simpl.
  destruct (cid =? 0) eqn:E; [apply Z.eqb_eq in E; contradiction|]. simpl.
  unfold hbind at 1. unfold hbind at 1.
  rewrite (sqlite_select_owned_run cid u w Hc Hu), Hn. reflexivity.
Qed.

Lemma sqlite_quick_message_foreign_conversation_witness :
  1 <> 0
  /\ accepted_int 1 /\ accepted_int (user_id bob)
  /\ ~ owned (db sample_world) 1 bob
  /\ Sqlite.quick_message sample_engine env_answering (lit "hi") (Some 1)
       bob sample_world
     = (Raises (Http conversation_not_found), sample_world).
Proof.
  assert (Hnz : 1 <> 0) by lia.
  assert (Hc : accepted_int 1) by reflexivity.
  assert (Hu : accepted_int (user_id bob)) by reflexivity.
  assert (Hn : ~ owned (db sample_world) 1 bob).
  { intros (c & Hin & Hid & Hu'). simpl in Hin.
    destruct Hin as [<-|[<-|[]]]; simpl in *; lia. }
  split; [exact Hnz|]. split; [exact Hc|]. split; [exact Hu|].
  split; [exact Hn|].
  apply (sqlite_quick_message_foreign_conversation sample_engine
           env_answering (lit "hi") 1 bob sample_world Hnz Hc Hu Hn).
Defined.

Lemma sqlite_new_conversation_run :
  forall eng env u t w,
    accepted_int (user_id u) ->
    bind_optional_text eng t = None ->
    Sqlite.new_conversation eng env u t w
    = (let c := mkConversation (next_id (map conv_id (conversations (db w))))
                  (user_id u) t (clock env (ticks w))
                  (clock env (S (ticks w))) in
       (Returns c,
        mkWorld (mkDB (users (db w)) (profiles (db w))
                   (conversations (db w) ++ [c]) (messages (db w)))
                (S (S (ticks w))) (sent w))).
Proof.
  intros eng env u t w Hu Ht. unfold Sqlite.new_conversation.
  unfold accepted_int in Hu. hrun. rewrite Hu, Ht. reflexivity.
Qed.

(** X18: when every stored message belongs to a stored conversation and
    the binding takes the caller's id, the new conversation's id, the
    configured history limit, the derived title, the content and the reply,
    [quick_message] without a conversation id returns, and the messages of
    the conversation it creates are exactly the user message and the
    assistant message it returns. *)
Theorem sqlite_quick_message_new_transcript :
  forall eng env content_ u w,
    messages_belong (db w) ->
    let cid := next_id (map conv_id (conversations (db w))) in
    accepted_int (user_id u) -> accepted_int cid ->
    accepted_int (effective_limit env None) ->
    accepted_text eng (derive_title content_) ->
    accepted_text eng content_ ->
    accepted_text eng (turn_reply env (db w) u cid content_) ->
    exists um am w',
      Sqlite.quick_message eng env content_ None u w
        = (Returns (mkChatResponse cid (message_read um) (message_read am)),
           w')
      /\ messages_of (db w') cid = [um; am]
      /\ role um = lit "user" /\ content um = content_
      /\ role am = lit "assistant"
      /\ content am = turn_reply env (db w) u cid content_.
Proof.
  intros eng env content_ u w Hb cid Hu Hc Hl Htitle Ht Hr.
  unfold Sqlite.quick_message. simpl id_truthy. cbv iota.
  unfold hbind at 1.
  rewrite (sqlite_new_conversation_run eng env u
             (Some (derive_title content_)) w Hu Htitle).
  cbv beta iota zeta. simpl conv_id. fold cid.
  match goal with
  | |- context [Sqlite.send_message eng env cid content_ u ?w1] =>
      assert (Ho : owned (db w1) cid u);
      [|pose proof (sqlite_send_message_run eng env cid content_ u w1
                      Hc Hu Hl Ht Hr Ho) as Hrun;
        rewrite (send_message_run env cid content_ u w1 Ho) in Hrun]
  end.
  { eexists. split; [simpl; apply in_or_app; right; left; reflexivity|].
    split; reflexivity. }
  cbv zeta in Hrun. simpl snd in Hrun.
  eexists. eexists. eexists. split; [exact Hrun|]. simpl.
  split; [|repeat split].
  unfold messages_of at 1. simpl. rewrite messages_of_app. simpl.
  rewrite Z.eqb_refl.
  assert (Hempty : messages_of (db w) cid = []).
  { unfold messages_of.
    destruct (filter (fun m => conversation_id m =? cid) (messages (db w)))
      as [|m l] eqn:E; [reflexivity|].
    assert (Hin : In m (filter (fun m => conversation_id m =? cid)
                          (messages (db w)))) by (rewrite E; left; auto).
    apply filter_In in Hin. destruct Hin as [Hin Hm].
    apply Z.eqb_eq in Hm.
    destruct (Hb m Hin) as (c & Hcin & Hid).
    assert (Hlt : conv_id c < cid).
    { apply next_id_fresh. apply in_map. exact Hcin. }
    lia. }
  rewrite Hempty. reflexivity.
Qed.

Lemma sqlite_quick_message_new_transcript_witness :
  messages_belong (db sample_world)
  /\ accepted_int (user_id alice) /\ accepted_int 3
  /\ accepted_int (effective_limit env_answering None)
  /\ accepted_text sample_engine (derive_title sixty_chars)
  /\ accepted_text sample_engine sixty_chars
  /\ accepted_text sample_engine
       (turn_reply env_answering (db sample_world) alice 3 sixty_chars)
  /\ exists um am w',
       Sqlite.quick_message sample_engine env_answering sixty_chars None
         alice sample_world
         = (Returns (mkChatResponse 3 (message_read um) (message_read am)),
            w')
       /\ messages_of (db w') 3 = [um; am].
Proof.
  assert (Hb : messages_belong (db sample_world)).
  { intros m Hin. simpl in Hin.
    exists (mkConversation 1 1 (Some (lit "Extinguishers")) 20 24).
    split; [left; reflexivity|].
    destruct Hin as [<-|[<-|[<-|[]]]]; reflexivity. }
  assert (Hu : accepted_int (user_id alice)) by reflexivity.
  assert (Hc : accepted_int 3) by reflexivity.
  assert (Hl : accepted_int (effective_limit env_answering None))
    by reflexivity.
  assert (Htitle : accepted_text sample_engine (derive_title sixty_chars))
    by (vm_compute; reflexivity).
  assert (Ht : accepted_text sample_engine sixty_chars)
    by (vm_compute; reflexivity).
  assert (Hr : accepted_text sample_engine
                 (turn_reply env_answering (db sample_world) alice 3
                    sixty_chars))
    by (vm_compute; reflexivity).
  repeat (split; [assumption|]).
  destruct (sqlite_quick_message_new_transcript sample_engine env_answering
              sixty_chars alice sample_world Hb Hu Hc Hl Htitle Ht Hr)
    as (um & am & w' & Hrun & Hm & _).
  exists um, am, w'. split; [exact Hrun|exact Hm].
Defined.

(** ** Scenarios over the binding *)

(** Fifty letters and a lone surrogate, without a conversation id: the
    titled conversation is stored, the user message is not, and the call
    raises. *)
Example quick_message_orphan_conversation :
  fst (Sqlite.quick_message sample_engine env_unconfigured
         (repeat 97%N 50 ++ lone_surrogate) None alice sample_world)
  = Raises UnicodeEncodeError
  /\ map title
       (conversations
          (db (snd (Sqlite.quick_message sample_engine env_unconfigured
                      (repeat 97%N 50 ++ lone_surrogate) None alice
                      sample_world))))
     = [Some (lit "Extinguishers"); Some (lit "Alarms");
        Some (repeat 97%N 50 ++ lit "...")]
  /\ messages
       (db (snd (Sqlite.quick_message sample_engine env_unconfigured
                   (repeat 97%N 50 ++ lone_surrogate) None alice
                   sample_world)))
     = messages sample_db.
Proof. repeat split; vm_compute; reflexivity. Qed.
